(** * The cache abstraction of the library-admin application

    A shallow embedding of

    - [backend/cache/InMemoryCache.js] and [src/utils/cache/InMemoryCache.ts]
      (the in-memory store of the server tier and of the browser tier),
    - [backend/cache/CacheFactory.js] (the registry of backends),

    followed by the properties of the cache contract.

    Conventions.  A JavaScript number that holds a count, a size or a
    time stamp is an integer of [Z] (all of them stay far below 2^53, where
    doubles are exact); the hit rate, the one place where the code divides,
    is computed on binary64 floats.  A JavaScript [Map] is a list of
    bindings with distinct keys, in insertion order.  A string is a
    sequence of code units below 256, one [ascii] each.  Every method runs to
    completion without the clock ticking, so a method that reads the clock
    takes the reading [now] (milliseconds since the epoch) as an argument. *)

From Stdlib Require Import ZArith List String Ascii Bool Lia.
From Stdlib Require Import Floats DecimalString.
Import ListNotations.

Local Open Scope string_scope.
Local Open Scope list_scope.
Local Open Scope Z_scope.

(** ** JavaScript's [Map], keyed by strings *)

Module JsMap.

Section Bindings.
Context {V : Type}.

Definition t := list (string * V).

Definition empty : t := [].

(** [Map.prototype.get]: [None] stands for [undefined]. *)
Fixpoint get (m : t) (k : string) : option V :=
  match m with
  | [] => None
  | (k', v) :: m' => if String.eqb k' k then Some v else get m' k
  end.

Definition has (m : t) (k : string) : bool :=
  match get m k with Some _ => true | None => false end.

(** [Map.prototype.set]: a key already present keeps its place in the
    order and takes the new value; a new key goes to the end. *)
Fixpoint set (m : t) (k : string) (v : V) : t :=
  match m with
  | [] => [(k, v)]
  | (k', v') :: m' =>
      if String.eqb k' k then (k', v) :: m' else (k', v') :: set m' k v
  end.

(** [Map.prototype.delete]. *)
Fixpoint delete (m : t) (k : string) : t :=
  match m with
  | [] => []
  | (k', v') :: m' =>
      if String.eqb k' k then m' else (k', v') :: delete m' k
  end.

Definition size (m : t) : Z := Z.of_nat (List.length m).

(** [Map.prototype.keys], in insertion order. *)
Definition keys (m : t) : list string := List.map fst m.

(** [m.keys().next().value]: the oldest key, [None] ([undefined]) when
    the map is empty. *)
Definition firstKey (m : t) : option string :=
  match m with
  | [] => None
  | (k, _) :: _ => Some k
  end.

(** The loop [for (const [key, entry] of m) if (p key entry)
    { m.delete(key); n++ }].  Deleting the binding under the cursor does
    not disturb the iteration of a [Map], so the loop visits the bindings
    [todo] the map had when it started, each once; [m] is the map and
    [n] the counter as they stand. *)
Fixpoint sweep (p : string -> V -> bool) (todo : t) (m : t) (n : Z) : t * Z :=
  match todo with
  | [] => (m, n)
  | (k, v) :: todo' =>
      if p k v then sweep p todo' (delete m k) (n + 1)
      else sweep p todo' m n
  end.

(** The keys of a [Map] are pairwise distinct. *)
Definition wf (m : t) : Prop := NoDup (keys m).
End Bindings.

Arguments t V : clear implicits.

End JsMap.

(** ** Cached values *)

(** The records of a cached collection: an [id] and the rest of the
    record. *)
Record item := mkItem { id : string; body : string }.

(** The values the application stores: collections of records, single
    records, and the primitive values whose truthiness the helpers test. *)
Inductive value :=
| VNull
| VNum (n : Z)
| VStr (s : string)
| VObj (r : item)
| VArr (l : list item).

(** JavaScript's [ToBoolean]: an array or an object is truthy, also when
    empty. *)
Definition truthy (v : value) : bool :=
  match v with
  | VNull => false
  | VNum n => negb (n =? 0)
  | VStr s => negb (String.eqb s "")
  | VObj _ => true
  | VArr _ => true
  end.

(** ** Regular expressions, as far as [deletePattern] builds them *)

Module RegExp.

(** The terms of a pattern: the assertions [^] and [$], the wildcard
    [.], the wildcard under a star [.*], and a character that stands for
    itself. *)
Inductive term := Begin | End | Any | AnyStar | Lit (c : ascii).

Definition t := list term.

(** [.] matches every character but the line terminators (there is no
    [s] flag); of the characters of the model these are line feed and
    carriage return. *)
Definition isLineTerminator (c : ascii) : bool :=
  Ascii.eqb c "010" || Ascii.eqb c "013".

(** The characters with a meaning in a pattern:
    [^ $ \ . * + ? ( ) [ ] { } |]. *)
Definition isSyntaxCharacter (c : ascii) : bool :=
  existsb (Ascii.eqb c)
    ["^"; "$"; "\"; "."; "*"; "+"; "?"; "("; ")"; "["; "]"; "{"; "}"; "|"]%char.

(** [new RegExp(source)], without flags.  [None]: the source uses
    syntax outside the fragment above (a group, a class, an escape, a
    quantifier other than the star of [.*]); JavaScript rejects some of
    these sources and gives the others a meaning that is not modelled. *)
Fixpoint parse (source : string) : option t :=
  match source with
  | EmptyString => Some []
  | String c rest =>
      if Ascii.eqb c "." then
        match rest with
        | String q rest' =>
            if Ascii.eqb q "*" then option_map (cons AnyStar) (parse rest')
            else option_map (cons Any) (parse rest)
        | EmptyString => option_map (cons Any) (parse rest)
        end
      else if Ascii.eqb c "^" then option_map (cons Begin) (parse rest)
      else if Ascii.eqb c "$" then option_map (cons End) (parse rest)
      else if isSyntaxCharacter c then None
      else option_map (cons (Lit c)) (parse rest)
  end.

(** [star k atStart s]: [.*] followed by the continuation [k]; the star
    takes any run of characters that are not line terminators. *)
Fixpoint star (k : bool -> string -> bool) (atStart : bool) (s : string) : bool :=
  k atStart s ||
  match s with
  | EmptyString => false
  | String c s' => negb (isLineTerminator c) && star k false s'
  end.

(** [matchHere r atStart s]: [r] matches a prefix of [s]; [atStart] says
    whether [s] is the whole input ([^] holds only there, [$] only at the
    end of the input: there is no [m] flag). *)
Fixpoint matchHere (r : t) (atStart : bool) (s : string) : bool :=
  match r with
  | [] => true
  | Begin :: r' => atStart && matchHere r' atStart s
  | End :: r' =>
      match s with
      | EmptyString => matchHere r' atStart s
      | String _ _ => false
      end
  | Any :: r' =>
      match s with
      | EmptyString => false
      | String c s' => negb (isLineTerminator c) && matchHere r' false s'
      end
  | AnyStar :: r' => star (matchHere r') atStart s
  | Lit a :: r' =>
      match s with
      | EmptyString => false
      | String c s' => Ascii.eqb a c && matchHere r' false s'
      end
  end.

(** [searchFrom r atStart s]: [r] matches at some position of [s]. *)
Fixpoint searchFrom (r : t) (atStart : bool) (s : string) : bool :=
  matchHere r atStart s ||
  match s with
  | EmptyString => false
  | String _ s' => searchFrom r false s'
  end.

(** [regex.test(s)] (no [g] flag, so no state is kept between calls). *)
Definition test (r : t) (s : string) : bool := searchFrom r true s.

(** [new RegExp(src)] as far as the fragment goes: the expression's
    [test] when [src] parses. *)
Definition compile (src : string) : option (string -> bool) :=
  option_map test (parse src).

End RegExp.

(** [s.replace(/c/g, by)] for a single character [c]. *)
Fixpoint replaceAll (c : ascii) (by_ : string) (s : string) : string :=
  match s with
  | EmptyString => EmptyString
  | String a s' =>
      if Ascii.eqb a c then (by_ ++ replaceAll c by_ s')%string
      else String a (replaceAll c by_ s')
  end.

(** ** Numbers as text *)

Module Number.

(** A count as a double. *)
Definition ofZ (z : Z) : float := PrimFloat.of_uint63 (Uint63.of_Z z).

(** The decimal digits of a natural number. *)
Definition digits (n : Z) : string :=
  NilZero.string_of_uint (N.to_uint (Z.to_N n)).

Definition digit (d : Z) : ascii :=
  ascii_of_N (48 + Z.to_N d).

(** The integer [n] for which [n / 100] is nearest to [m * 2^e], the
    larger one of two that are equally near. *)
Definition hundredths (m : positive) (e : Z) : Z :=
  if 0 <=? e then 100 * Z.pos m * 2 ^ e
  else (200 * Z.pos m + 2 ^ (- e)) / 2 ^ (1 - e).

(** [n] hundredths written with two decimals. *)
Definition fixed2 (n : Z) : string :=
  (digits (n / 100) ++ "." ++
   String (digit (n mod 100 / 10)) (String (digit (n mod 10)) EmptyString))%string.

(** [x.toFixed(2)], for [x] below 10^21 in magnitude. *)
Definition toFixed2 (x : float) : string :=
  match Prim2SF x with
  | S754_zero _ => fixed2 0
  | S754_nan => "NaN"
  | S754_infinity s => if s then "-Infinity" else "Infinity"
  | S754_finite s m e =>
      ((if s then "-" else "") ++ fixed2 (hundredths m e))%string
  end.

End Number.

(** ** The in-memory cache *)

(** The two implementations: [backend/cache/InMemoryCache.js] and
    [src/utils/cache/InMemoryCache.ts]. *)
Inductive tier := Backend | Frontend.

Record CacheEntry := mkEntry {
  value_of : value;
  createdAt : Z;
  expiresAt : option Z          (* [None] is [null] *)
}.

Record Stats := mkStats { hits : Z; misses : Z; sets : Z; deletes : Z }.

Record CacheOptions := mkOptions {
  opt_defaultTTL : option (option Z);   (* absent, or [null], or seconds *)
  opt_maxSize : option Z
}.

Record InMemoryCache := mkCache {
  impl : tier;
  cache : JsMap.t CacheEntry;
  defaultTTL : option Z;
  maxSize : Z;
  _stats : Stats
}.

(** What [stats()] returns. *)
Module CacheStats.
Record t := mk {
  type : string;
  size : Z;
  maxSize : Z;
  hits : Z;
  misses : Z;
  sets : Z;
  deletes : Z;
  hitRate : string
}.
End CacheStats.

Definition zeroStats : Stats := mkStats 0 0 0 0.

Definition milliseconds_per_day : Z := 86400000.

Module Cache.

(** [constructor(options = {})].  [options.defaultTTL ?? null]; the
    backend reads [options.maxSize || 1000], the frontend
    [options.maxSize ?? 1000]. *)
Definition new (i : tier) (o : CacheOptions) : InMemoryCache :=
  {| impl := i;
     cache := JsMap.empty;
     defaultTTL := match opt_defaultTTL o with
                   | Some d => d
                   | None => None
                   end;
     maxSize := match opt_maxSize o with
                | Some n =>
                    match i with
                    | Backend => if n =? 0 then 1000 else n
                    | Frontend => n
                    end
                | None => 1000
                end;
     _stats := zeroStats |}.

Definition with_cache (c : InMemoryCache) (m : JsMap.t CacheEntry) :=
  {| impl := impl c; cache := m; defaultTTL := defaultTTL c;
     maxSize := maxSize c; _stats := _stats c |}.

Definition with_stats (c : InMemoryCache) (s : Stats) :=
  {| impl := impl c; cache := cache c; defaultTTL := defaultTTL c;
     maxSize := maxSize c; _stats := s |}.

Definition hit (s : Stats) := mkStats (hits s + 1) (misses s) (sets s) (deletes s).
Definition miss (s : Stats) := mkStats (hits s) (misses s + 1) (sets s) (deletes s).
Definition did_set (s : Stats) := mkStats (hits s) (misses s) (sets s + 1) (deletes s).
Definition did_delete (n : Z) (s : Stats) :=
  mkStats (hits s) (misses s) (sets s) (deletes s + n).

(** [entry.expiresAt && Date.now() > entry.expiresAt]: a [null] (and a
    zero) [expiresAt] is falsy. *)
Definition expired (now : Z) (e : CacheEntry) : bool :=
  match expiresAt e with
  | None => false
  | Some t => negb (t =? 0) && (t <? now)
  end.

(** [get(key)]: the value, [VNull] on a miss, and the cache afterwards. *)
Definition get (c : InMemoryCache) (key : string) (now : Z)
  : value * InMemoryCache :=
  match JsMap.get (cache c) key with
  | None => (VNull, with_stats c (miss (_stats c)))
  | Some entry =>
      if expired now entry
      then (VNull,
            with_stats (with_cache c (JsMap.delete (cache c) key))
                       (miss (_stats c)))
      else (value_of entry, with_stats c (hit (_stats c)))
  end.

(** [_getSecondsUntilMidnight()].  [tz] is the offset of local time from
    UTC in milliseconds, constant over the day; [setHours(24, 0, 0, 0)]
    moves the local time to the start of the next local day. *)
Definition _getSecondsUntilMidnight (tz now : Z) : Z :=
  let local := now + tz in
  let midnight := local - local mod milliseconds_per_day + milliseconds_per_day - tz in
  (midnight - now) / 1000.

(** The TTL a [set] uses: the argument when given, else the time to
    midnight when [defaultTTL] is [null], else [defaultTTL]. *)
Definition resolveTTL (c : InMemoryCache) (ttlSeconds : option Z) (tz now : Z) : Z :=
  match ttlSeconds with
  | Some t => t
  | None =>
      match defaultTTL c with
      | None => _getSecondsUntilMidnight tz now
      | Some d => d
      end
  end.

(** The first part of [set]: when the map is full the oldest key goes.
    The frontend deletes it only [if (firstKey)], and the empty string is
    falsy; the backend calls [delete(firstKey)] also with [undefined],
    which deletes nothing. *)
Definition evict (c : InMemoryCache) : JsMap.t CacheEntry :=
  if maxSize c <=? JsMap.size (cache c) then
    match JsMap.firstKey (cache c) with
    | None => cache c
    | Some firstKey =>
        match impl c with
        | Backend => JsMap.delete (cache c) firstKey
        | Frontend =>
            if String.eqb firstKey "" then cache c
            else JsMap.delete (cache c) firstKey
        end
    end
  else cache c.

(** [set(key, value, ttlSeconds)]; [ttlSeconds = None] is the argument
    left out ([null] on the backend, [undefined] on the frontend). *)
Definition set (c : InMemoryCache) (key : string) (v : value)
           (ttlSeconds : option Z) (tz now : Z) : InMemoryCache :=
  let m := evict c in
  let ttl := resolveTTL c ttlSeconds tz now in
  let entry :=
    {| value_of := v;
       createdAt := now;
       expiresAt := if ttl =? 0 then None else Some (now + ttl * 1000) |} in
  with_stats (with_cache c (JsMap.set m key entry)) (did_set (_stats c)).

(** [delete(key)]. *)
Definition delete (c : InMemoryCache) (key : string) : bool * InMemoryCache :=
  let existed := JsMap.has (cache c) key in
  let c' := with_cache c (JsMap.delete (cache c) key) in
  (existed, if existed then with_stats c' (did_delete 1 (_stats c)) else c').

(** [clear()]. *)
Definition clear (c : InMemoryCache) : InMemoryCache :=
  with_stats (with_cache c JsMap.empty) zeroStats.

(** [has(key)]. *)
Definition has (c : InMemoryCache) (key : string) (now : Z)
  : bool * InMemoryCache :=
  match JsMap.get (cache c) key with
  | None => (false, c)
  | Some entry =>
      if expired now entry
      then (false, with_cache c (JsMap.delete (cache c) key))
      else (true, c)
  end.

(** [_cleanup()], the sweep the backend runs every minute. *)
Definition _cleanup (c : InMemoryCache) (now : Z) : InMemoryCache :=
  with_cache c (fst (JsMap.sweep (fun _ e => expired now e) (cache c) (cache c) 0)).

(** The source of the regular expression [deletePattern] compiles:
    [`^${pattern.replace(/\*/g, '.*').replace(/\?/g, '.')}$`]. *)
Definition globSource (pattern : string) : string :=
  ("^" ++ replaceAll "?" "." (replaceAll "*" ".*" pattern) ++ "$")%string.

(** [deletePattern(pattern)]: the count and the cache afterwards; [None]
    when the compiled source is outside the fragment of [RegExp.parse]. *)
Definition deletePattern (c : InMemoryCache) (pattern : string)
  : option (Z * InMemoryCache) :=
  match RegExp.parse (globSource pattern) with
  | None => None
  | Some regex =>
      let '(m, deletedCount) :=
        JsMap.sweep (fun key _ => RegExp.test regex key) (cache c) (cache c) 0 in
      Some (deletedCount,
            with_stats (with_cache c m) (did_delete deletedCount (_stats c)))
  end.

(** The loop of [deletePattern] and the two statements after it, for a
    compiled expression given by its [test]:
    [let deletedCount = 0; for (const key of this.cache.keys()) { if
    (regex.test(key)) { this.cache.delete(key); deletedCount++; } }
    this._stats.deletes += deletedCount; return deletedCount].  The
    expression is built without the [g] and [y] flags, so [regex.test]
    keeps no position between calls and is a function of the key. *)
Definition deleteMatching (c : InMemoryCache) (test : string -> bool)
  : Z * InMemoryCache :=
  let '(m, deletedCount) :=
    JsMap.sweep (fun key _ => test key) (cache c) (cache c) 0 in
  (deletedCount, with_stats (with_cache c m) (did_delete deletedCount (_stats c))).

(** [deletePattern(pattern)] over any regular-expression engine:
    [compile src] is [new RegExp(src)], [None] when the constructor throws
    a [SyntaxError] (the call then ends before the loop, with the cache
    untouched) and the [test] of the expression otherwise. *)
Definition deletePatternWith (compile : string -> option (string -> bool))
           (c : InMemoryCache) (pattern : string) : option (Z * InMemoryCache) :=
  match compile (globSource pattern) with
  | None => None
  | Some test => Some (deleteMatching c test)
  end.

(** [stats()].  With no read yet the backend interpolates the number
    [0], the frontend the string ['0.00']. *)
Definition stats (c : InMemoryCache) : CacheStats.t :=
  let total := hits (_stats c) + misses (_stats c) in
  let hitRate :=
    if 0 <? total
    then Number.toFixed2
           (Number.ofZ (hits (_stats c)) / Number.ofZ total * Number.ofZ 100)%float
    else match impl c with
         | Backend => "0"
         | Frontend => "0.00"
         end in
  {| CacheStats.type := "in-memory";
     CacheStats.size := JsMap.size (cache c);
     CacheStats.maxSize := maxSize c;
     CacheStats.hits := hits (_stats c);
     CacheStats.misses := misses (_stats c);
     CacheStats.sets := sets (_stats c);
     CacheStats.deletes := deletes (_stats c);
     CacheStats.hitRate := (hitRate ++ "%")%string |}.

(** *** The collection helpers of the frontend *)

(** [addToArray(arrayKey, item)].  [None]: the cached value is truthy
    and not an array, which the signature of the helper excludes. *)
Definition addToArray (c : InMemoryCache) (arrayKey : string) (it : item)
           (tz now : Z) : option InMemoryCache :=
  let '(cached, c1) := get c arrayKey now in
  if negb (truthy cached) then Some c1
  else match cached with
       | VArr l => Some (set c1 arrayKey (VArr (l ++ [it])) None tz now)
       | _ => None
       end.

(** [updateInArray(arrayKey, item)]. *)
Definition updateInArray (c : InMemoryCache) (arrayKey : string) (it : item)
           (tz now : Z) : option InMemoryCache :=
  let '(cached, c1) := get c arrayKey now in
  if negb (truthy cached) then Some c1
  else match cached with
       | VArr l =>
           let updated :=
             List.map (fun i => if String.eqb (id i) (id it) then it else i) l in
           Some (set c1 arrayKey (VArr updated) None tz now)
       | _ => None
       end.

(** [removeFromArray(arrayKey, id)]. *)
Definition removeFromArray (c : InMemoryCache) (arrayKey : string) (id_ : string)
           (tz now : Z) : option InMemoryCache :=
  let '(cached, c1) := get c arrayKey now in
  if negb (truthy cached) then Some c1
  else match cached with
       | VArr l =>
           let updated :=
             List.filter (fun i => negb (String.eqb (id i) id_)) l in
           Some (set c1 arrayKey (VArr updated) None tz now)
       | _ => None
       end.

End Cache.

(** ** The factory of the backend *)

Module CacheFactory.

(** The placeholder [RedisCache]: its constructor stores the options,
    leaves [client] at [null] and reads [options.defaultTTL || 300]. *)
Record RedisCache := mkRedis {
  redis_options : CacheOptions;
  redis_defaultTTL : Z
}.

(** What [create] can return: an instance of one of the two classes of
    the repository, an instance of a registered class (named by a tag),
    or, from [new Object(options)], the [options] object itself. *)
Inductive instance :=
| Memory (c : InMemoryCache)
| Redis (r : RedisCache)
| Custom (tag : string) (o : CacheOptions)
| PlainObject (o : CacheOptions).

(** The exceptions of [create]: [Error(`Unknown cache type: ${type}. ...`)]
    and the [TypeError] of [new] applied to what is not a constructor. *)
Inductive exception :=
| UnknownCacheType (type : string)
| NotAConstructor.

Inductive outcome :=
| Returned (i : instance)
| Threw (e : exception).

Inductive CacheClass :=
| InMemoryCacheClass
| RedisCacheClass
| CustomClass (construct : CacheOptions -> outcome).

(** The values a property of the registry object can hold, as far as
    [create] tells them apart. *)
Inductive property :=
| Class (C : CacheClass)
| ObjectConstructor           (* [Object] itself *)
| NotConstructor              (* truthy, but [new] rejects it *)
| Falsy.                      (* [undefined], [null], ... *)

(** The registry [cacheTypes] is an object literal: its own properties,
    in insertion order. *)
Definition registry := JsMap.t property.

Definition cacheTypes : registry :=
  [("memory", Class InMemoryCacheClass); ("redis", Class RedisCacheClass)].

(** What an object literal inherits from [Object.prototype]:
    [constructor] is [Object]; the others are methods, and [__proto__]
    reads as [Object.prototype]. *)
Definition objectPrototype (name : string) : option property :=
  if String.eqb name "constructor" then Some ObjectConstructor
  else if existsb (String.eqb name)
            ["__defineGetter__"; "__defineSetter__"; "__lookupGetter__";
             "__lookupSetter__"; "__proto__"; "hasOwnProperty";
             "isPrototypeOf"; "propertyIsEnumerable"; "toLocaleString";
             "toString"; "valueOf"]
  then Some NotConstructor
  else None.

(** [this.cacheTypes[type]]: an own property, else an inherited one, else
    [undefined]. *)
Definition lookup (r : registry) (type : string) : property :=
  match JsMap.get r type with
  | Some p => p
  | None =>
      match objectPrototype type with
      | Some p => p
      | None => Falsy
      end
  end.

Record CacheConfig := mkConfig {
  config_type : option string;
  config_options : option CacheOptions
}.

(** [new CacheClass(options)]. *)
Definition construct (p : property) (options : CacheOptions) : outcome :=
  match p with
  | Class InMemoryCacheClass => Returned (Memory (Cache.new Backend options))
  | Class RedisCacheClass =>
      Returned (Redis {| redis_options := options;
                         redis_defaultTTL :=
                           match opt_defaultTTL options with
                           | Some (Some d) => if d =? 0 then 300 else d
                           | _ => 300
                           end |})
  | Class (CustomClass new_) => new_ options
  | ObjectConstructor => Returned (PlainObject options)
  | NotConstructor => Threw NotAConstructor
  | Falsy => Threw NotAConstructor
  end.

(** [CacheFactory.create(config = {})]. *)
Definition create (r : registry) (config : CacheConfig) : outcome :=
  let type :=
    match config_type config with
    | Some t => if String.eqb t "" then "memory" else t
    | None => "memory"
    end in
  let options :=
    match config_options config with
    | Some o => o
    | None => mkOptions None None
    end in
  match lookup r type with
  | Falsy => Threw (UnknownCacheType type)
  | C => construct C options
  end.

(** [CacheFactory.register(name, CacheClass)].  [None]: the assignment
    to [__proto__] replaces the prototype of the registry instead of
    adding a property, which is not modelled. *)
Definition register (r : registry) (name : string) (C : property)
  : option registry :=
  if String.eqb name "__proto__" then None
  else Some (JsMap.set r name C).

(** [getCache()] of [backend/cache/index.js] with its module variable
    [cacheInstance]: the outcome and the variable afterwards. *)
Definition getCache (r : registry) (cacheConfig : CacheConfig)
           (cacheInstance : option instance) : outcome * option instance :=
  match cacheInstance with
  | Some i => (Returned i, cacheInstance)
  | None =>
      match create r cacheConfig with
      | Returned i => (Returned i, Some i)
      | Threw e => (Threw e, None)
      end
  end.

End CacheFactory.

(** ** Notions the statements use *)

(** *** Well-formed stores *)

Definition cache_wf (c : InMemoryCache) : Prop := JsMap.wf (cache c).

Definition keysOf (c : InMemoryCache) : list string := JsMap.keys (cache c).

(** *** Observations, TTLs and the hit rate *)

(** What goes on in a cache without anyone writing to it: reads, presence
    checks and sweeps, each at some time. *)
Inductive observation :=
| ObsGet (key : string) (now : Z)
| ObsHas (key : string) (now : Z)
| ObsCleanup (now : Z).

Definition observe1 (c : InMemoryCache) (o : observation) : InMemoryCache :=
  match o with
  | ObsGet key now => snd (Cache.get c key now)
  | ObsHas key now => snd (Cache.has c key now)
  | ObsCleanup now => Cache._cleanup c now
  end.

Definition observe (c : InMemoryCache) (os : list observation) : InMemoryCache :=
  List.fold_left observe1 os c.

(** The entry [set] stores at time [now] for a TTL of [ttl] seconds. *)
Definition entry_with_ttl (v : value) (now ttl : Z) : CacheEntry :=
  {| value_of := v;
     createdAt := now;
     expiresAt := if ttl =? 0 then None else Some (now + ttl * 1000) |}.

(** [M] is the next local midnight after [now]: the first instant after
    [now] at which the local time of day is 00:00:00.000. *)
Definition next_local_midnight (tz now M : Z) : Prop :=
  now < M <= now + milliseconds_per_day /\
  (M + tz) mod milliseconds_per_day = 0.

(** The double [stats] formats once a read has occurred. *)
Definition hitPercent (s : Stats) : float :=
  (Number.ofZ (hits s) / Number.ofZ (hits s + misses s) * Number.ofZ 100)%float.

(** *** Collections *)

(** How often an id occurs in a list of records. *)
Definition occurrences (id_ : string) (l : list item) : nat :=
  List.length (List.filter (fun i => String.eqb (id i) id_) l).

Definition without (id_ : string) (l : list item) : list item :=
  List.filter (fun i => negb (String.eqb (id i) id_)) l.

(** *** Globs *)

(** The glob as the spec words it: [*] stands for any run of characters,
    [?] for exactly one character, any other character for itself, and the
    whole key has to match. *)
Fixpoint glob_star (k : string -> bool) (s : string) : bool :=
  k s ||
  match s with
  | EmptyString => false
  | String _ s' => glob_star k s'
  end.

Fixpoint glob_match (pattern : string) (s : string) : bool :=
  match pattern with
  | EmptyString =>
      match s with EmptyString => true | String _ _ => false end
  | String c pattern' =>
      if Ascii.eqb c "*" then glob_star (glob_match pattern') s
      else
        match s with
        | EmptyString => false
        | String a s' => (Ascii.eqb c "?" || Ascii.eqb c a) && glob_match pattern' s'
        end
  end.

Fixpoint string_forallb (f : ascii -> bool) (s : string) : bool :=
  match s with
  | EmptyString => true
  | String a s' => f a && string_forallb f s'
  end.

(** A glob is plain when [*] and [?] are its only characters with a
    meaning in a regular expression. *)
Definition plain_glob (pattern : string) : bool :=
  string_forallb
    (fun c => Ascii.eqb c "*" || Ascii.eqb c "?" || negb (RegExp.isSyntaxCharacter c))
    pattern.

Definition no_line_terminator (s : string) : bool :=
  string_forallb (fun c => negb (RegExp.isLineTerminator c)) s.

(** The terms a plain glob compiles to, between [^] and [$]. *)
Fixpoint glob_terms (pattern : string) : RegExp.t :=
  match pattern with
  | EmptyString => []
  | String c pattern' =>
      (if Ascii.eqb c "*" then RegExp.AnyStar
       else if Ascii.eqb c "?" then RegExp.Any
       else RegExp.Lit c) :: glob_terms pattern'
  end.

(** *** Sample caches and configurations *)

(** A backend cache holding the key [k], set at time 1000000 with a TTL of
    one second. *)
Definition one_second_entry : InMemoryCache :=
  Cache.set (Cache.new Backend (mkOptions None None)) "k" (VNum 7) (Some 1) 0 1000000.

(** A frontend cache whose list of books holds one record, set at time
    1000000 to live for an hour. *)
Definition one_book : InMemoryCache :=
  Cache.set (Cache.new Frontend (mkOptions None (Some 100)))
            "books:all" (VArr [mkItem "7" "Emma"]) (Some 3600) 0 1000000.

(** The list of books after [addToArray] of a second record with the id
    7. *)
Definition two_sevens : option InMemoryCache :=
  Cache.addToArray one_book "books:all" (mkItem "7" "Emma, 2nd ed.") 0 1000500.

(** A backend cache into which the keys [ks] were set, in this order. *)
Definition with_keys (ks : list string) : InMemoryCache :=
  List.fold_left (fun c k => Cache.set c k (VNum 1) None 0 1000000) ks
                 (Cache.new Backend (mkOptions None None)).

Definition config_of (type : string) (o : CacheOptions) : CacheFactory.CacheConfig :=
  CacheFactory.mkConfig (Some type) (Some o).

(** ** The key catalogue *)

(** [CacheKeys] of [backend/cache/index.js] and of the frontend's
    [utils/cache/index.ts]: the generators of the keys and the patterns of
    invalidation.  [bookSearch] and [userSearch] are the backend's, [allIssues]
    and [allBookRequests] with their patterns the frontend's. *)
Module CacheKeys.

Definition allBooks : string := "books:all".
Definition book (id_ : string) : string := ("books:" ++ id_)%string.
Definition bookSearch (query : string) : string := ("books:search:" ++ query)%string.

Definition allUsers : string := "users:all".
Definition user (id_ : string) : string := ("users:" ++ id_)%string.
Definition userSearch (query : string) : string := ("users:search:" ++ query)%string.

Definition allCategories : string := "categories:all".
Definition category (id_ : string) : string := ("categories:" ++ id_)%string.

Definition allWriters : string := "writers:all".
Definition writer (id_ : string) : string := ("writers:" ++ id_)%string.

Definition allIssues : string := "issues:all".

Definition allBookRequests : string := "book-requests:all".

Module patterns.
Definition allBooks : string := "books:*".
Definition allUsers : string := "users:*".
Definition allCategories : string := "categories:*".
Definition allWriters : string := "writers:*".
Definition allIssues : string := "issues:*".
Definition allBookRequests : string := "book-requests:*".
End patterns.

End CacheKeys.

(** ** The data access layer of the frontend *)

(** [utils/api.ts]: the calls of the cache around each request to the
    server.  The request itself is not modelled: its result is an argument,
    [None] when [fetchWithAuth] throws.  The code of [booksApi],
    [categoriesApi], [writersApi] and [usersApi] differs in the keys alone,
    which are arguments here; each API is an instance. *)
Module Api.

Inductive promise (A : Type) :=
| Resolved (a : A)
| Rejected.

Arguments Resolved {A} a.
Arguments Rejected {A}.

(** [getAll] and [getById]: [cached = cache.get(cacheKey)] at time
    [t_get]; [if (cached) return cached]; otherwise the request, then
    [cache.set(cacheKey, fetched)] at time [t_set]. *)
Definition readThrough (cacheKey : string) (c : InMemoryCache)
           (response : option value) (tz t_get t_set : Z)
  : promise value * InMemoryCache :=
  let '(cached, c1) := Cache.get c cacheKey t_get in
  if truthy cached then (Resolved cached, c1)
  else match response with
       | None => (Rejected, c1)
       | Some fetched =>
           (Resolved fetched, Cache.set c1 cacheKey fetched None tz t_set)
       end.

(** [create]: after the request, [cache.addToArray(listKey, created)] and
    [cache.set(itemKey(created.id), created)].  The inner [None]: the
    helper met a truthy value that is not an array. *)
Definition create (listKey : string) (itemKey : string -> string)
           (c : InMemoryCache) (response : option item) (tz now : Z)
  : promise item * option InMemoryCache :=
  match response with
  | None => (Rejected, Some c)
  | Some created =>
      (Resolved created,
       match Cache.addToArray c listKey created tz now with
       | None => None
       | Some c1 =>
           Some (Cache.set c1 (itemKey (id created)) (VObj created) None tz now)
       end)
  end.

(** [update(id, ...)]: after the request,
    [cache.updateInArray(listKey, updated)] and
    [cache.set(itemKey(id), updated)]. *)
Definition update (listKey : string) (itemKey : string -> string)
           (c : InMemoryCache) (id_ : string) (response : option item) (tz now : Z)
  : promise item * option InMemoryCache :=
  match response with
  | None => (Rejected, Some c)
  | Some updated =>
      (Resolved updated,
       match Cache.updateInArray c listKey updated tz now with
       | None => None
       | Some c1 => Some (Cache.set c1 (itemKey id_) (VObj updated) None tz now)
       end)
  end.

(** [delete(id)]: after the request, [cache.removeFromArray(listKey, id)]
    and [cache.delete(itemKey(id))]; [true] stands for the result of the
    request. *)
Definition delete (listKey : string) (itemKey : string -> string)
           (c : InMemoryCache) (id_ : string) (response : option unit) (tz now : Z)
  : promise unit * option InMemoryCache :=
  match response with
  | None => (Rejected, Some c)
  | Some result =>
      (Resolved result,
       match Cache.removeFromArray c listKey id_ tz now with
       | None => None
       | Some c1 => Some (snd (Cache.delete c1 (itemKey id_)))
       end)
  end.

End Api.

(** [booksApi], as an instance. *)
Module booksApi.
Definition getAll := Api.readThrough CacheKeys.allBooks.
Definition getById (id_ : string) := Api.readThrough (CacheKeys.book id_).
Definition create := Api.create CacheKeys.allBooks CacheKeys.book.
Definition update := Api.update CacheKeys.allBooks CacheKeys.book.
Definition delete := Api.delete CacheKeys.allBooks CacheKeys.book.
End booksApi.

(** ** Runs of the cache *)

(** The calls of the cache contract, with the readings of the clock. *)
Inductive operation :=
| OpGet (key : string) (now : Z)
| OpSet (key : string) (v : value) (ttlSeconds : option Z) (tz now : Z)
| OpDelete (key : string)
| OpDeletePattern (pattern : string)
| OpClear
| OpHas (key : string) (now : Z)
| OpCleanup (now : Z).

(** The cache after a call.  A [deletePattern] whose pattern is outside
    the fragment of [RegExp.parse] is not modelled ([modelled] below tells);
    [step] leaves the cache as it is there, which is what a pattern that
    [new RegExp] rejects does. *)
Definition step (c : InMemoryCache) (o : operation) : InMemoryCache :=
  match o with
  | OpGet key now => snd (Cache.get c key now)
  | OpSet key v ttlSeconds tz now => Cache.set c key v ttlSeconds tz now
  | OpDelete key => snd (Cache.delete c key)
  | OpDeletePattern pattern =>
      match Cache.deletePattern c pattern with
      | Some (_, c') => c'
      | None => c
      end
  | OpClear => Cache.clear c
  | OpHas key now => snd (Cache.has c key now)
  | OpCleanup now => Cache._cleanup c now
  end.

Definition run (c : InMemoryCache) (os : list operation) : InMemoryCache :=
  List.fold_left step os c.

Definition is_get (o : operation) : bool :=
  match o with OpGet _ _ => true | _ => false end.

Definition is_set (o : operation) : bool :=
  match o with OpSet _ _ _ _ _ => true | _ => false end.

Definition is_clear (o : operation) : bool :=
  match o with OpClear => true | _ => false end.

Definition sets_key (k : string) (o : operation) : bool :=
  match o with OpSet key _ _ _ _ => String.eqb key k | _ => false end.

Definition count_ops (f : operation -> bool) (os : list operation) : Z :=
  Z.of_nat (List.length (List.filter f os)).

(** The calls within the model: every call but a [deletePattern] whose
    pattern is outside the fragment of [RegExp.parse]. *)
Definition modelled (o : operation) : bool :=
  match o with
  | OpDeletePattern pattern =>
      match RegExp.parse (Cache.globSource pattern) with
      | Some _ => true
      | None => false
      end
  | _ => true
  end.

(** The resources of the catalogue, each with its pattern. *)
Definition pattern_table : list (string * string) :=
  [("books", CacheKeys.patterns.allBooks);
   ("users", CacheKeys.patterns.allUsers);
   ("categories", CacheKeys.patterns.allCategories);
   ("writers", CacheKeys.patterns.allWriters);
   ("issues", CacheKeys.patterns.allIssues);
   ("book-requests", CacheKeys.patterns.allBookRequests)].

(** The key of a resource: [`${resource}:${selector}`], the form of every
    generator of the catalogue. *)
Definition resource_key (resource selector : string) : string :=
  (resource ++ ":" ++ selector)%string.

(** The records of an array with the one that carries the id of [it]
    replaced by [it], as [updateInArray] maps them. *)
Definition replaced (it : item) (l : list item) : list item :=
  List.map (fun i => if String.eqb (id i) (id it) then it else i) l.

(** *** Further notions and sample caches *)

(** The invariant of the size: the store is well formed and not above
    [maxSize], and on the frontend the empty string is not a key. *)
Definition within_capacity (c : InMemoryCache) : Prop :=
  cache_wf c /\ JsMap.size (cache c) <= maxSize c /\
  (impl c = Frontend -> ~ In "" (keysOf c)).

(** A pattern without any character that has a meaning in a regular
    expression, [*] and [?] included. *)
Definition literal_glob (pattern : string) : bool :=
  string_forallb (fun c => negb (RegExp.isSyntaxCharacter c)) pattern.

(** A full backend cache of two books, the list first. *)
Definition two_entries : InMemoryCache :=
  Cache.set
    (Cache.set (Cache.new Backend (mkOptions None (Some 2)))
               "books:all" (VArr [mkItem "7" "Emma"]) None 0 1000000)
    "books:7" (VObj (mkItem "7" "Emma")) None 0 1000000.

(** A full frontend cache whose oldest key is the empty string. *)
Definition empty_key_first : InMemoryCache :=
  Cache.set (Cache.new Frontend (mkOptions None (Some 1))) "" (VNum 1) None 0 1000000.

(** * Properties *)

(** ** The ordered map *)

Section JsMapFacts.
Context {V : Type}.
Implicit Types (m : JsMap.t V) (k : string) (v : V).

Lemma get_None_iff m k : JsMap.get m k = None <-> ~ In k (JsMap.keys m).
Proof.
  induction m as [|[k' v'] m IH]; simpl.
  - tauto.
  - destruct (String.eqb_spec k' k) as [->|Hne].
    + split; [discriminate | intros H; exfalso; apply H; now left].
    + rewrite IH. split; [intros H [E|I]; auto | intros H I; apply H; now right].
Qed.

Lemma has_true_iff m k : JsMap.has m k = true <-> In k (JsMap.keys m).
Proof.
  unfold JsMap.has. destruct (JsMap.get m k) eqn:E.
  - split; [intros _|reflexivity].
    destruct (in_dec string_dec k (JsMap.keys m)) as [I|N]; [exact I|].
    apply get_None_iff in N. congruence.
  - apply get_None_iff in E. split; [discriminate | contradiction].
Qed.

Lemma get_set_same m k v : JsMap.get (JsMap.set m k v) k = Some v.
Proof.
  induction m as [|[k' v'] m IH]; simpl.
  - now rewrite String.eqb_refl.
  - destruct (String.eqb k' k) eqn:E; simpl; rewrite E; auto.
Qed.

Lemma get_set_other m k k' v :
  k <> k' -> JsMap.get (JsMap.set m k v) k' = JsMap.get m k'.
Proof.
  intros Hne. induction m as [|[k0 v0] m IH]; simpl.
  - destruct (String.eqb_spec k k'); congruence.
  - destruct (String.eqb_spec k0 k) as [->|N]; simpl.
    + destruct (String.eqb_spec k k'); congruence.
    + now rewrite IH.
Qed.

Lemma keys_set_present m k v :
  In k (JsMap.keys m) -> JsMap.keys (JsMap.set m k v) = JsMap.keys m.
Proof.
  induction m as [|[k' v'] m IH]; simpl; [tauto|].
  intros [E|I]; destruct (String.eqb_spec k' k); simpl; try congruence.
  f_equal. now apply IH.
Qed.

Lemma keys_set_absent m k v :
  ~ In k (JsMap.keys m) -> JsMap.keys (JsMap.set m k v) = JsMap.keys m ++ [k].
Proof.
  induction m as [|[k' v'] m IH]; simpl; [reflexivity|].
  intros N. destruct (String.eqb_spec k' k) as [->|Hne].
  - exfalso; apply N; now left.
  - simpl. f_equal. apply IH. tauto.
Qed.

Lemma delete_absent m k : ~ In k (JsMap.keys m) -> JsMap.delete m k = m.
Proof.
  induction m as [|[k' v'] m IH]; simpl; [reflexivity|].
  intros N. destruct (String.eqb_spec k' k) as [->|Hne].
  - exfalso; apply N; now left.
  - f_equal. apply IH. tauto.
Qed.

Lemma delete_middle (pre post : JsMap.t V) k v :
  ~ In k (JsMap.keys pre) ->
  JsMap.delete (pre ++ (k, v) :: post) k = pre ++ post.
Proof.
  induction pre as [|[k' v'] pre IH]; simpl; intros N.
  - now rewrite String.eqb_refl.
  - destruct (String.eqb_spec k' k) as [->|Hne].
    + exfalso; apply N; now left.
    + f_equal. apply IH. tauto.
Qed.

Lemma In_keys_delete m k k' :
  In k' (JsMap.keys (JsMap.delete m k)) -> In k' (JsMap.keys m).
Proof.
  induction m as [|[k0 v0] m IH]; simpl; [tauto|].
  destruct (String.eqb_spec k0 k); simpl; intuition.
Qed.

Lemma In_keys_delete_other m k k' :
  k <> k' -> In k' (JsMap.keys m) -> In k' (JsMap.keys (JsMap.delete m k)).
Proof.
  intros Hne. induction m as [|[k0 v0] m IH]; simpl; [tauto|].
  destruct (String.eqb_spec k0 k) as [->|N]; simpl; intuition congruence.
Qed.

Lemma wf_delete m k : JsMap.wf m -> JsMap.wf (JsMap.delete m k).
Proof.
  unfold JsMap.wf. induction m as [|[k0 v0] m IH]; simpl; intros W; [exact W|].
  inversion W as [|? ? N W']; subst.
  destruct (String.eqb_spec k0 k); simpl; [exact W'|].
  constructor; [|now apply IH].
  intros I. apply N. eapply In_keys_delete; eauto.
Qed.

Lemma not_In_keys_delete m k :
  JsMap.wf m -> ~ In k (JsMap.keys (JsMap.delete m k)).
Proof.
  unfold JsMap.wf. induction m as [|[k0 v0] m IH]; simpl; intros W; [tauto|].
  inversion W as [|? ? N W']; subst.
  destruct (String.eqb_spec k0 k) as [->|Hne]; simpl; [exact N|].
  intros [E|I]; [congruence|]. now apply IH in I.
Qed.

Lemma get_delete_same m k : JsMap.wf m -> JsMap.get (JsMap.delete m k) k = None.
Proof. intros W. apply get_None_iff. now apply not_In_keys_delete. Qed.

Lemma get_delete_other m k k' :
  k <> k' -> JsMap.get (JsMap.delete m k) k' = JsMap.get m k'.
Proof.
  intros Hne. induction m as [|[k0 v0] m IH]; simpl; [reflexivity|].
  destruct (String.eqb_spec k0 k) as [->|N]; simpl.
  - destruct (String.eqb_spec k k'); congruence.
  - now rewrite IH.
Qed.

Lemma wf_set m k v : JsMap.wf m -> JsMap.wf (JsMap.set m k v).
Proof.
  unfold JsMap.wf. intros W.
  destruct (in_dec string_dec k (JsMap.keys m)) as [I|N].
  - now rewrite keys_set_present.
  - rewrite keys_set_absent by exact N.
    apply NoDup_app; [exact W | repeat constructor; simpl; tauto |].
    intros x Hx [<-|[]]. contradiction.
Qed.

Lemma size_delete_present m k :
  In k (JsMap.keys m) -> JsMap.size (JsMap.delete m k) = JsMap.size m - 1.
Proof.
  unfold JsMap.size. induction m as [|[k0 v0] m IH]; [simpl; tauto|].
  intros I. simpl in I. simpl JsMap.delete.
  destruct (String.eqb_spec k0 k) as [->|N].
  - simpl List.length. lia.
  - destruct I as [E|I]; [congruence|]. simpl List.length.
    specialize (IH I). lia.
Qed.

(** The loop of [deletePattern] and [_cleanup], started on the whole map,
    keeps the bindings that fail the test, in their order, and counts
    the others. *)
Lemma sweep_spec (p : string -> V -> bool) (done todo : JsMap.t V) (n : Z) :
  JsMap.wf (done ++ todo) ->
  JsMap.sweep p todo (List.filter (fun kv => negb (p (fst kv) (snd kv))) done ++ todo) n
  = (List.filter (fun kv => negb (p (fst kv) (snd kv))) (done ++ todo),
     n + Z.of_nat (List.length (List.filter (fun kv => p (fst kv) (snd kv)) todo))).
Proof.
  revert done n. induction todo as [|[k v] todo IH]; intros done n W; simpl.
  - rewrite !app_nil_r. f_equal. lia.
  - assert (Hk : ~ In k (JsMap.keys (List.filter
               (fun kv => negb (p (fst kv) (snd kv))) done))).
    { unfold JsMap.wf, JsMap.keys in *. rewrite map_app in W. simpl in W.
      apply NoDup_remove_2 in W. intros I. apply W. apply in_or_app. left.
      apply in_map_iff in I. destruct I as [[k0 v0] [E I]].
      apply filter_In in I. apply in_map_iff. exists (k0, v0). tauto. }
    specialize (IH (done ++ [(k, v)])).
    replace ((done ++ [(k, v)]) ++ todo) with (done ++ (k, v) :: todo) in IH
      by now rewrite <- app_assoc.
    rewrite filter_app in IH. cbn [List.filter fst snd] in IH.
    destruct (p k v) eqn:E; cbn [negb] in IH |- *.
    + rewrite delete_middle by exact Hk.
      rewrite app_nil_r in IH. rewrite IH by exact W.
      f_equal. cbn [List.length]. lia.
    + rewrite <- app_assoc in IH. cbn [app] in IH. rewrite IH by exact W.
      reflexivity.
Qed.

Lemma sweep_filter (p : string -> V -> bool) (m : JsMap.t V) :
  JsMap.wf m ->
  JsMap.sweep p m m 0
  = (List.filter (fun kv => negb (p (fst kv) (snd kv))) m,
     Z.of_nat (List.length (List.filter (fun kv => p (fst kv) (snd kv)) m))).
Proof. intros W. exact (sweep_spec p [] m 0 W). Qed.

End JsMapFacts.

(** ** The store stays well formed *)

(** Case analysis on a lookup followed by the expiry test, as [get] and
    [has] make it. *)
Ltac case_lookup c key now :=
  let e := fresh "e" in
  let G := fresh "G" in
  let X := fresh "X" in
  destruct (JsMap.get (cache c) key) as [e|] eqn:G;
  [destruct (Cache.expired now e) eqn:X|].

Lemma new_wf i o : cache_wf (Cache.new i o).
Proof. constructor. Qed.

Lemma evict_wf c : cache_wf c -> JsMap.wf (Cache.evict c).
Proof.
  unfold cache_wf, Cache.evict. intros W.
  destruct (maxSize c <=? JsMap.size (cache c)); [|exact W].
  destruct (JsMap.firstKey (cache c)); [|exact W].
  destruct (impl c); [now apply wf_delete|].
  destruct (String.eqb s ""); [exact W | now apply wf_delete].
Qed.

Lemma set_wf c key v ttl tz now : cache_wf c -> cache_wf (Cache.set c key v ttl tz now).
Proof. intros W. unfold cache_wf, Cache.set. simpl. apply wf_set. now apply evict_wf. Qed.

Lemma get_wf c key now : cache_wf c -> cache_wf (snd (Cache.get c key now)).
Proof.
  unfold cache_wf, Cache.get. intros W.
  case_lookup c key now; simpl; auto using wf_delete.
Qed.

Lemma wf_filter {V : Type} (q : string * V -> bool) (m : JsMap.t V) :
  JsMap.wf m -> JsMap.wf (List.filter q m).
Proof.
  unfold JsMap.wf, JsMap.keys. induction m as [|[k v] m IH]; simpl; intros W; [exact W|].
  inversion W as [|? ? N W']; subst.
  destruct (q (k, v)); simpl; [|now apply IH].
  constructor; [|now apply IH].
  intros I. apply N. apply in_map_iff in I. destruct I as [[k0 v0] [E I]].
  apply filter_In in I. apply in_map_iff. exists (k0, v0). tauto.
Qed.

Lemma has_wf c key now : cache_wf c -> cache_wf (snd (Cache.has c key now)).
Proof.
  unfold cache_wf, Cache.has. intros W.
  case_lookup c key now; simpl; auto using wf_delete.
Qed.

Lemma cleanup_cache c now :
  cache_wf c ->
  cache (Cache._cleanup c now)
  = List.filter (fun kv => negb (Cache.expired now (snd kv))) (cache c).
Proof. intros W. unfold Cache._cleanup. simpl. now rewrite sweep_filter. Qed.

Lemma cleanup_wf c now : cache_wf c -> cache_wf (Cache._cleanup c now).
Proof.
  intros W. unfold cache_wf. rewrite cleanup_cache by exact W. now apply wf_filter.
Qed.

Lemma observe1_wf c o : cache_wf c -> cache_wf (observe1 c o).
Proof.
  destruct o; simpl; [apply get_wf | apply has_wf | apply cleanup_wf].
Qed.

Create HintDb cache_wf.
#[local] Hint Resolve new_wf set_wf get_wf has_wf cleanup_wf observe1_wf : cache_wf.

Lemma observe_wf c os : cache_wf c -> cache_wf (observe c os).
Proof.
  revert c. induction os as [|o os IH]; intros c W; simpl; auto with cache_wf.
Qed.

(** ** Eviction *)

(** What the first part of [set] does to a full map whose oldest key the
    implementation is willing to delete: the oldest binding goes. *)
Lemma evict_full c :
  maxSize c <= JsMap.size (cache c) ->
  (impl c = Frontend -> JsMap.firstKey (cache c) <> Some "") ->
  Cache.evict c = List.tl (cache c).
Proof.
  unfold Cache.evict. intros Hfull Hfirst.
  apply Z.leb_le in Hfull. rewrite Hfull.
  destruct (cache c) as [|[k0 e0] m]; [reflexivity|].
  simpl in *. destruct (impl c).
  - now rewrite String.eqb_refl.
  - destruct (String.eqb_spec k0 "") as [->|N].
    + now exfalso; apply Hfirst.
    + now rewrite String.eqb_refl.
Qed.

Lemma evict_room c : JsMap.size (cache c) < maxSize c -> Cache.evict c = cache c.
Proof.
  unfold Cache.evict. intros H. apply Z.leb_gt in H. now rewrite H.
Qed.

(** A [set] of a new key into a full cache removes the oldest key, and
    only that one, and puts the new key last. *)
Lemma set_new_key_at_capacity c key v ttl tz now :
  cache_wf c ->
  JsMap.size (cache c) = maxSize c ->
  (impl c = Frontend -> JsMap.firstKey (cache c) <> Some "") ->
  ~ In key (keysOf c) ->
  keysOf (Cache.set c key v ttl tz now) = List.tl (keysOf c) ++ [key].
Proof.
  intros W Hsize Hfirst Hnew.
  unfold keysOf, Cache.set. simpl.
  rewrite evict_full by (auto; lia).
  unfold keysOf in Hnew.
  destruct (cache c) as [|[k0 e0] m]; [reflexivity|].
  simpl in *. apply keys_set_absent. tauto.
Qed.

(** A [set] into a cache with room left removes nothing. *)
Lemma set_below_capacity c key v ttl tz now :
  JsMap.size (cache c) < maxSize c ->
  keysOf (Cache.set c key v ttl tz now)
  = if JsMap.has (cache c) key then keysOf c else keysOf c ++ [key].
Proof.
  intros Hroom. unfold keysOf, Cache.set. simpl.
  rewrite evict_room by exact Hroom.
  destruct (JsMap.has (cache c) key) eqn:E.
  - apply keys_set_present. now apply has_true_iff.
  - apply keys_set_absent. intros I. apply has_true_iff in I. congruence.
Qed.

(** A [set] of a key that is present, and is not the oldest one, in a full
    cache removes the oldest key all the same: the test of [set] looks at
    the size alone. *)
Lemma set_present_key_at_capacity c key v ttl tz now :
  cache_wf c ->
  maxSize c <= JsMap.size (cache c) ->
  (impl c = Frontend -> JsMap.firstKey (cache c) <> Some "") ->
  In key (List.tl (keysOf c)) ->
  keysOf (Cache.set c key v ttl tz now) = List.tl (keysOf c).
Proof.
  intros W Hsize Hfirst Hin.
  unfold keysOf, Cache.set in *. simpl.
  rewrite evict_full by auto.
  destruct (cache c) as [|[k0 e0] m]; [destruct Hin|].
  simpl in *. now apply keys_set_present.
Qed.

(** A [get] leaves the order of the keys alone: it removes the key it
    reads when that entry has expired, and changes nothing else. *)
Lemma get_keeps_order c key now :
  cache (snd (Cache.get c key now)) = cache c \/
  cache (snd (Cache.get c key now)) = JsMap.delete (cache c) key.
Proof.
  unfold Cache.get. destruct (JsMap.get (cache c) key) as [e|]; [|now left].
  destruct (Cache.expired now e); simpl; [now right | now left].
Qed.

Lemma get_live_keeps_cache c key now v :
  fst (Cache.get c key now) = v -> v <> VNull ->
  cache (snd (Cache.get c key now)) = cache c.
Proof.
  unfold Cache.get. destruct (JsMap.get (cache c) key) as [e|]; simpl; [|congruence].
  destruct (Cache.expired now e); simpl; congruence.
Qed.

(** The example of the spec: with [maxSize = 2], the keys [k1], [k2] and
    [k3] set in this order leave [k2] and [k3], whether or not [k1] was read
    in between, on both tiers. *)
Lemma eviction_example (i : tier) (tz t1 t2 t3 t4 : Z) (read_k1 : bool) :
  let c0 := Cache.new i (mkOptions None (Some 2)) in
  let c1 := Cache.set c0 "k1" (VNum 1) None tz t1 in
  let c2 := Cache.set c1 "k2" (VNum 2) None tz t2 in
  let c3 := if read_k1 then snd (Cache.get c2 "k1" t3) else c2 in
  let c4 := Cache.set c3 "k3" (VNum 3) None tz t4 in
  keysOf c4 = ["k2"; "k3"].
Proof.
  destruct i, read_k1; cbv zeta; try reflexivity;
    unfold Cache.get;
    cbn -[Cache.expired Cache._getSecondsUntilMidnight Z.mul Z.add];
    match goal with
    | |- context [if Cache.expired ?t ?e then _ else _] =>
        destruct (Cache.expired t e)
    end; reflexivity.
Qed.

(** C1. A [set] of a key that the full store already holds evicts the
    oldest entry nevertheless: with [maxSize = 2] and the keys [k1] and [k2]
    stored, setting [k2] again leaves [k2] alone in the store, on both
    tiers.  (The claim has it that such a [set] evicts no entry.) *)
Theorem set_present_key_evicts_oldest (i : tier) (tz t1 t2 t3 : Z) :
  let c0 := Cache.new i (mkOptions None (Some 2)) in
  let c1 := Cache.set c0 "k1" (VNum 1) None tz t1 in
  let c2 := Cache.set c1 "k2" (VNum 2) None tz t2 in
  let c3 := Cache.set c2 "k2" (VNum 22) None tz t3 in
  keysOf c2 = ["k1"; "k2"] /\
  JsMap.size (cache c2) = maxSize c2 /\
  keysOf c3 = ["k2"] /\
  JsMap.has (cache c3) "k1" = false.
Proof. destruct i; repeat split; reflexivity. Qed.

(** ** Statistics of removals *)

Lemma filter_partition_length {A : Type} (p : A -> bool) (l : list A) :
  (List.length (List.filter p l)
   + List.length (List.filter (fun x => negb (p x)) l))%nat = List.length l.
Proof.
  induction l as [|a l IH]; simpl; [reflexivity|].
  destruct (p a); simpl; lia.
Qed.

(** [Cache.deletePattern] is [Cache.deletePatternWith] at the engine of
    the fragment. *)
Lemma deletePattern_fragment c pattern :
  Cache.deletePattern c pattern = Cache.deletePatternWith RegExp.compile c pattern.
Proof.
  unfold Cache.deletePattern, Cache.deletePatternWith, Cache.deleteMatching,
    RegExp.compile.
  destruct (RegExp.parse (Cache.globSource pattern)) as [regex|]; simpl; [|reflexivity].
  destruct (JsMap.sweep _ _ _ _); reflexivity.
Qed.

(** The loop of [deletePattern] keeps the bindings whose key fails the
    test, in their order, and counts the others. *)
Lemma deleteMatching_filter c (test : string -> bool) :
  cache_wf c ->
  Cache.deleteMatching c test
  = (Z.of_nat (List.length
                 (List.filter (fun kv : string * CacheEntry => test (fst kv)) (cache c))),
     Cache.with_stats
       (Cache.with_cache c
          (List.filter (fun kv : string * CacheEntry => negb (test (fst kv))) (cache c)))
       (Cache.did_delete
          (Z.of_nat (List.length
                       (List.filter (fun kv : string * CacheEntry => test (fst kv))
                                    (cache c))))
          (_stats c))).
Proof.
  unfold Cache.deleteMatching, cache_wf. intros W.
  rewrite sweep_filter by exact W. reflexivity.
Qed.

Lemma filter_keys_length {V : Type} (test : string -> bool) (m : JsMap.t V) :
  List.length (List.filter test (JsMap.keys m))
  = List.length (List.filter (fun kv : string * V => test (fst kv)) m).
Proof.
  unfold JsMap.keys. induction m as [|[k v] m IH]; simpl; [reflexivity|].
  destruct (test k); simpl; now rewrite IH.
Qed.

(** The loop adds to [deletes] the number it returns; that number is the
    number of keys the test accepts, and the number of bindings that left
    the store. *)
Lemma deleteMatching_counts c (test : string -> bool) :
  cache_wf c ->
  deletes (_stats (snd (Cache.deleteMatching c test)))
  = deletes (_stats c) + fst (Cache.deleteMatching c test) /\
  fst (Cache.deleteMatching c test)
  = JsMap.size (cache c) - JsMap.size (cache (snd (Cache.deleteMatching c test))) /\
  fst (Cache.deleteMatching c test)
  = Z.of_nat (List.length (List.filter test (JsMap.keys (cache c)))).
Proof.
  intros W. rewrite deleteMatching_filter by exact W.
  cbn [fst snd _stats cache Cache.with_stats Cache.with_cache Cache.did_delete deletes].
  split; [reflexivity|]. split; [|now rewrite filter_keys_length].
  unfold JsMap.size.
  pose proof (filter_partition_length
                (fun kv : string * CacheEntry => test (fst kv)) (cache c)) as L.
  cbv beta in L. lia.
Qed.

(** A [get] that finds the entry expired takes it out of the store and
    counts a miss. *)
Lemma get_expired_counts c key now e :
  cache_wf c ->
  JsMap.get (cache c) key = Some e -> Cache.expired now e = true ->
  fst (Cache.get c key now) = VNull /\
  JsMap.has (cache (snd (Cache.get c key now))) key = false /\
  misses (_stats (snd (Cache.get c key now))) = misses (_stats c) + 1 /\
  hits (_stats (snd (Cache.get c key now))) = hits (_stats c).
Proof.
  unfold cache_wf, Cache.get. intros W G X. rewrite G, X. simpl.
  split; [reflexivity|]. split; [|split; reflexivity].
  destruct (JsMap.has (JsMap.delete (cache c) key) key) eqn:H; [|reflexivity].
  apply has_true_iff in H. exfalso.
  exact (proj1 (get_None_iff _ _) (get_delete_same _ _ W) H).
Qed.

Lemma delete_counts c key :
  deletes (_stats (snd (Cache.delete c key)))
  = deletes (_stats c) + (if JsMap.has (cache c) key then 1 else 0).
Proof.
  unfold Cache.delete. destruct (JsMap.has (cache c) key); simpl; lia.
Qed.

Lemma get_keeps_deletes c key now :
  deletes (_stats (snd (Cache.get c key now))) = deletes (_stats c).
Proof.
  unfold Cache.get. destruct (JsMap.get (cache c) key) as [e|]; [|reflexivity].
  destruct (Cache.expired now e); reflexivity.
Qed.

Lemma has_keeps_stats c key now :
  _stats (snd (Cache.has c key now)) = _stats c.
Proof.
  unfold Cache.has. destruct (JsMap.get (cache c) key) as [e|]; [|reflexivity].
  destruct (Cache.expired now e); reflexivity.
Qed.

Lemma cleanup_keeps_stats c now : _stats (Cache._cleanup c now) = _stats c.
Proof. reflexivity. Qed.

(** C2, as the claim states it, fails: a [get], a [has] and a sweep that
    find the entry of [k] expired remove it, and [deletes] stays at 0
    instead of growing by one. *)
Lemma expiry_removal_not_counted :
  let c := one_second_entry in
  let removed_by c' :=
    JsMap.has (cache c) "k" = true /\ JsMap.has (cache c') "k" = false in
  (removed_by (snd (Cache.get c "k" 1002000)) /\
   deletes (_stats (snd (Cache.get c "k" 1002000))) <> deletes (_stats c) + 1) /\
  (removed_by (snd (Cache.has c "k" 1002000)) /\
   deletes (_stats (snd (Cache.has c "k" 1002000))) <> deletes (_stats c) + 1) /\
  (removed_by (Cache._cleanup c 1002000) /\
   deletes (_stats (Cache._cleanup c 1002000)) <> deletes (_stats c) + 1).
Proof. cbv zeta. repeat split; vm_compute; congruence. Qed.

(** C2, amended.  [delete] on a present key adds one to [deletes] and
    takes one binding out (and nothing on an absent key).  [deletePattern]
    adds one per key removed: whatever expression the constructor returns
    for the pattern, the call returns the number of keys the expression's
    [test] accepts, that many bindings leave the store and [deletes] grows
    by that number; on the fragment of [RegExp.parse] this is the call of
    [Cache.deletePattern].  [get], [has] and the sweep leave [deletes] as
    it is, also when they remove an expired entry; a [get] that finds the
    entry expired removes it and counts a miss. *)
Theorem deletes_counts_explicit_removals
        (c : InMemoryCache) (key pattern : string) (now : Z) :
  cache_wf c ->
  deletes (_stats (snd (Cache.delete c key)))
  = deletes (_stats c) + (if JsMap.has (cache c) key then 1 else 0) /\
  JsMap.size (cache (snd (Cache.delete c key)))
  = JsMap.size (cache c) - (if JsMap.has (cache c) key then 1 else 0) /\
  (forall (compile : string -> option (string -> bool)) (test : string -> bool),
      compile (Cache.globSource pattern) = Some test ->
      exists (n : Z) (c' : InMemoryCache),
        Cache.deletePatternWith compile c pattern = Some (n, c') /\
        n = Z.of_nat (List.length (List.filter test (JsMap.keys (cache c)))) /\
        n = JsMap.size (cache c) - JsMap.size (cache c') /\
        deletes (_stats c') = deletes (_stats c) + n) /\
  Cache.deletePattern c pattern = Cache.deletePatternWith RegExp.compile c pattern /\
  deletes (_stats (snd (Cache.get c key now))) = deletes (_stats c) /\
  deletes (_stats (snd (Cache.has c key now))) = deletes (_stats c) /\
  deletes (_stats (Cache._cleanup c now)) = deletes (_stats c) /\
  (forall e : CacheEntry,
      JsMap.get (cache c) key = Some e -> Cache.expired now e = true ->
      JsMap.has (cache (snd (Cache.get c key now))) key = false /\
      misses (_stats (snd (Cache.get c key now))) = misses (_stats c) + 1).
Proof.
  intros W. split; [apply delete_counts|]. split.
  { unfold Cache.delete. destruct (JsMap.has (cache c) key) eqn:E; simpl.
    - apply size_delete_present. now apply has_true_iff.
    - rewrite delete_absent; [lia|]. intros I. apply has_true_iff in I. congruence. }
  split.
  { intros compile test Hc. unfold Cache.deletePatternWith. rewrite Hc.
    destruct (deleteMatching_counts c test W) as (Hd & Hs & Hn).
    destruct (Cache.deleteMatching c test) as [n c']. simpl in Hd, Hs, Hn.
    exists n, c'. split; [reflexivity|]. split; [exact Hn|]. split; [exact Hs|exact Hd]. }
  split; [apply deletePattern_fragment|].
  split; [apply get_keeps_deletes|].
  split; [now rewrite has_keeps_stats|]. split; [reflexivity|].
  intros e G X. destruct (get_expired_counts c key now e W G X) as (_ & H & M & _).
  split; [exact H | exact M].
Qed.

Lemma one_second_entry_wf : cache_wf one_second_entry.
Proof. unfold one_second_entry. auto with cache_wf. Qed.

Lemma deletes_counts_explicit_removals_witness :
  cache_wf one_second_entry /\
  deletes (_stats (snd (Cache.delete one_second_entry "k")))
  = deletes (_stats one_second_entry)
    + (if JsMap.has (cache one_second_entry) "k" then 1 else 0) /\
  JsMap.size (cache (snd (Cache.delete one_second_entry "k")))
  = JsMap.size (cache one_second_entry)
    - (if JsMap.has (cache one_second_entry) "k" then 1 else 0) /\
  (forall (compile : string -> option (string -> bool)) (test : string -> bool),
      compile (Cache.globSource "?") = Some test ->
      exists (n : Z) (c' : InMemoryCache),
        Cache.deletePatternWith compile one_second_entry "?" = Some (n, c') /\
        n = Z.of_nat (List.length
                        (List.filter test (JsMap.keys (cache one_second_entry)))) /\
        n = JsMap.size (cache one_second_entry) - JsMap.size (cache c') /\
        deletes (_stats c') = deletes (_stats one_second_entry) + n) /\
  Cache.deletePattern one_second_entry "?"
  = Cache.deletePatternWith RegExp.compile one_second_entry "?" /\
  deletes (_stats (snd (Cache.get one_second_entry "k" 1002000)))
  = deletes (_stats one_second_entry) /\
  deletes (_stats (snd (Cache.has one_second_entry "k" 1002000)))
  = deletes (_stats one_second_entry) /\
  deletes (_stats (Cache._cleanup one_second_entry 1002000))
  = deletes (_stats one_second_entry) /\
  (forall e : CacheEntry,
      JsMap.get (cache one_second_entry) "k" = Some e ->
      Cache.expired 1002000 e = true ->
      JsMap.has (cache (snd (Cache.get one_second_entry "k" 1002000))) "k" = false /\
      misses (_stats (snd (Cache.get one_second_entry "k" 1002000)))
      = misses (_stats one_second_entry) + 1).
Proof.
  split; [exact one_second_entry_wf|].
  exact (deletes_counts_explicit_removals
           one_second_entry "k" "?" 1002000 one_second_entry_wf).
Defined.

(** ** Expiry and presence *)



Lemma get_filter_kept {V : Type} (q : string * V -> bool) (m : JsMap.t V) k v :
  JsMap.get m k = Some v -> q (k, v) = true ->
  JsMap.get (List.filter q m) k = Some v.
Proof.
  induction m as [|[k0 v0] m IH]; simpl; [discriminate|].
  destruct (String.eqb_spec k0 k) as [->|N]; intros G Q.
  - injection G as ->. rewrite Q. simpl. now rewrite String.eqb_refl.
  - destruct (q (k0, v0)); simpl; [|now apply IH].
    destruct (String.eqb_spec k0 k); [congruence | now apply IH].
Qed.

Lemma never_expired now e : expiresAt e = None -> Cache.expired now e = false.
Proof. unfold Cache.expired. now intros ->. Qed.

(** An entry without an expiry time outlives every read, presence check
    and sweep. *)
Lemma observe_keeps_unexpiring c os key e :
  cache_wf c ->
  JsMap.get (cache c) key = Some e -> expiresAt e = None ->
  JsMap.get (cache (observe c os)) key = Some e.
Proof.
  revert c. induction os as [|o os IH]; intros c W G N; [exact G|].
  simpl. apply IH; [now apply observe1_wf | | exact N].
  destruct o as [k t|k t|t]; cbn [observe1].
  - unfold Cache.get. destruct (JsMap.get (cache c) k) as [e'|] eqn:G'; [|exact G].
    destruct (Cache.expired t e') eqn:X; simpl; [|exact G].
    destruct (String.eqb_spec k key) as [->|Hne].
    + rewrite G in G'. injection G' as <-. rewrite never_expired in X; congruence.
    + now rewrite get_delete_other.
  - unfold Cache.has. destruct (JsMap.get (cache c) k) as [e'|] eqn:G'; [|exact G].
    destruct (Cache.expired t e') eqn:X; simpl; [|exact G].
    destruct (String.eqb_spec k key) as [->|Hne].
    + rewrite G in G'. injection G' as <-. rewrite never_expired in X; congruence.
    + now rewrite get_delete_other.
  - rewrite cleanup_cache by exact W.
    apply get_filter_kept; [exact G|]. simpl. now rewrite never_expired.
Qed.

(** C9. [set(k, v, 0)] stores the entry with [expiresAt = null]: whatever
    reads, presence checks and sweeps follow, at whatever times, a later
    [get(k)] is a hit that returns [v]. *)
Theorem set_ttl_zero_never_expires (c : InMemoryCache) (key : string) (v : value)
        (tz now : Z) (os : list observation) (later : Z) :
  cache_wf c ->
  let c' := Cache.set c key v (Some 0) tz now in
  JsMap.get (cache c') key = Some (mkEntry v now None) /\
  fst (Cache.get (observe c' os) key later) = v /\
  hits (_stats (snd (Cache.get (observe c' os) key later)))
  = hits (_stats (observe c' os)) + 1.
Proof.
  intros W c'.
  assert (G : JsMap.get (cache c') key = Some (mkEntry v now None)).
  { unfold c', Cache.set. simpl. apply get_set_same. }
  split; [exact G|].
  assert (G' := observe_keeps_unexpiring c' os key _ (set_wf _ _ _ _ _ _ W) G eq_refl).
  unfold Cache.get. rewrite G'. simpl. split; reflexivity.
Qed.

Lemma set_ttl_zero_never_expires_witness :
  cache_wf one_second_entry /\
  JsMap.get (cache (Cache.set one_second_entry "n" (VStr "v") (Some 0) 0 1000500)) "n"
  = Some (mkEntry (VStr "v") 1000500 None) /\
  fst (Cache.get
         (observe (Cache.set one_second_entry "n" (VStr "v") (Some 0) 0 1000500)
                  [ObsGet "k" 1002000; ObsCleanup 99000000; ObsHas "n" 99000000])
         "n" 4102444800000) = VStr "v" /\
  hits (_stats (snd (Cache.get
         (observe (Cache.set one_second_entry "n" (VStr "v") (Some 0) 0 1000500)
                  [ObsGet "k" 1002000; ObsCleanup 99000000; ObsHas "n" 99000000])
         "n" 4102444800000)))
  = hits (_stats
         (observe (Cache.set one_second_entry "n" (VStr "v") (Some 0) 0 1000500)
                  [ObsGet "k" 1002000; ObsCleanup 99000000; ObsHas "n" 99000000])) + 1.
Proof.
  split; [exact one_second_entry_wf|].
  exact (set_ttl_zero_never_expires one_second_entry "n" (VStr "v") 0 1000500
           [ObsGet "k" 1002000; ObsCleanup 99000000; ObsHas "n" 99000000]
           4102444800000 one_second_entry_wf).
Defined.

(** ** Time to live *)

Lemma set_stores c key v ttlSeconds tz now :
  JsMap.get (cache (Cache.set c key v ttlSeconds tz now)) key
  = Some (entry_with_ttl v now (Cache.resolveTTL c ttlSeconds tz now)).
Proof. unfold Cache.set. simpl. apply get_set_same. Qed.

(** The seconds [_getSecondsUntilMidnight] returns are the whole seconds
    left until the next local midnight. *)
Lemma seconds_until_next_midnight tz now M :
  next_local_midnight tz now M ->
  Cache._getSecondsUntilMidnight tz now = (M - now) / 1000.
Proof.
  unfold next_local_midnight, Cache._getSecondsUntilMidnight, milliseconds_per_day.
  intros [[Hlo Hhi] Hmod]. f_equal.
  apply Z.mod_divide in Hmod; [|lia]. destruct Hmod as [k Hk].
  pose proof (Z.div_mod (now + tz) 86400000 ltac:(lia)) as D.
  pose proof (Z.mod_pos_bound (now + tz) 86400000 ltac:(lia)) as B.
  assert (k = (now + tz) / 86400000 + 1) by lia.
  lia.
Qed.

(** Seen from the local time of day: [ms] milliseconds after local
    midnight there are [(86400000 - ms) / 1000] seconds to go. *)
Lemma seconds_until_midnight_of_day tz now :
  Cache._getSecondsUntilMidnight tz now
  = (milliseconds_per_day - (now + tz) mod milliseconds_per_day) / 1000.
Proof.
  unfold Cache._getSecondsUntilMidnight. cbv zeta. f_equal. lia.
Qed.


(** X25. In the last second before local midnight the whole seconds left
    are 0, and a TTL of 0 stores no expiry time: without a TTL argument and
    with [defaultTTL = null], such an entry is stored with
    [expiresAt = null]. *)
Lemma set_in_last_second_before_midnight c key v tz now :
  defaultTTL c = None ->
  milliseconds_per_day - 1000 < (now + tz) mod milliseconds_per_day ->
  JsMap.get (cache (Cache.set c key v None tz now)) key = Some (mkEntry v now None).
Proof.
  intros Hd Hlate. rewrite set_stores. unfold Cache.resolveTTL. rewrite Hd.
  rewrite seconds_until_midnight_of_day.
  pose proof (Z.mod_pos_bound (now + tz) milliseconds_per_day ltac:(reflexivity)) as B.
  unfold milliseconds_per_day in *.
  replace ((86400000 - (now + tz) mod 86400000) / 1000) with 0; [reflexivity|].
  symmetry. apply Z.div_small. lia.
Qed.

Lemma set_in_last_second_before_midnight_witness :
  (defaultTTL (Cache.new Backend (mkOptions None None)) = None /\
   milliseconds_per_day - 1000 < (1767304799500 + 7200000) mod milliseconds_per_day) /\
  JsMap.get (cache (Cache.set (Cache.new Backend (mkOptions None None))
                              "books:all" (VArr []) None 7200000 1767304799500))
            "books:all"
  = Some (mkEntry (VArr []) 1767304799500 None).
Proof.
  assert (H : milliseconds_per_day - 1000
              < (1767304799500 + 7200000) mod milliseconds_per_day)
    by (vm_compute; reflexivity).
  split; [exact (conj eq_refl H)|].
  exact (set_in_last_second_before_midnight (Cache.new Backend (mkOptions None None))
           "books:all" (VArr []) 7200000 1767304799500 eq_refl H).
Defined.

(** The two entries of the example on a concrete day: local time is UTC+2
    ([tz = 7200000]); 21:00:00 UTC of 2026-01-01 is 23:00:00 local time, and
    22:00:01 UTC is 00:00:01 local time of the next day. *)
Example ttl_at_23_00_00 :
  let c := Cache.new Backend (mkOptions (Some None) None) in
  JsMap.get (cache (Cache.set c "books:all" (VArr []) None 7200000 1767301200000))
            "books:all"
  = Some (mkEntry (VArr []) 1767301200000 (Some (1767301200000 + 3600 * 1000))).
Proof. reflexivity. Qed.

Example ttl_at_00_00_01 :
  let c := Cache.new Frontend (mkOptions None None) in
  JsMap.get (cache (Cache.set c "books:all" (VArr []) None 7200000 1767304801000))
            "books:all"
  = Some (mkEntry (VArr []) 1767304801000 (Some (1767304801000 + 86399 * 1000))).
Proof. reflexivity. Qed.

(** ** Statistics report and [clear] *)

(** [hundredths m e] is the integer nearest to [100 * m * 2^e], the larger
    one when two are equally near: with [e < 0] and everything scaled by
    [2 * 2^(-e)], [n - 1/2 <= 100 * m * 2^e < n + 1/2]. *)
Lemma hundredths_nearest (m : positive) (e : Z) :
  let n := Number.hundredths m e in
  if 0 <=? e then n = 100 * Z.pos m * 2 ^ e
  else (2 * n - 1) * 2 ^ (- e) <= 200 * Z.pos m < (2 * n + 1) * 2 ^ (- e).
Proof.
  unfold Number.hundredths. destruct (0 <=? e) eqn:E; [reflexivity|].
  apply Z.leb_gt in E. cbv zeta.
  replace (1 - e) with (Z.succ (- e)) by lia.
  rewrite Z.pow_succ_r by lia.
  assert (P : 0 < 2 ^ (- e)) by (apply Z.pow_pos_nonneg; lia).
  set (p := 2 ^ (- e)) in *.
  pose proof (Z.div_mod (200 * Z.pos m + p) (2 * p) ltac:(lia)) as D.
  pose proof (Z.mod_pos_bound (200 * Z.pos m + p) (2 * p) ltac:(lia)) as B.
  set (n := (200 * Z.pos m + p) / (2 * p)) in *.
  nia.
Qed.

Lemma hundredths_nonneg (m : positive) (e : Z) : 0 <= Number.hundredths m e.
Proof.
  unfold Number.hundredths. destruct (0 <=? e) eqn:E.
  - apply Z.leb_le in E. assert (0 <= 2 ^ e) by (apply Z.pow_nonneg; lia). nia.
  - apply Z.leb_gt in E.
    assert (0 < 2 ^ (- e)) by (apply Z.pow_pos_nonneg; lia).
    assert (0 < 2 ^ (1 - e)) by (apply Z.pow_pos_nonneg; lia).
    apply Z.div_pos; lia.
Qed.

(** The text of [n] hundredths ends in a point and two decimal digits. *)
Lemma fixed2_two_decimals (n : Z) :
  0 <= n ->
  exists d1 d2 : Z,
    0 <= d1 <= 9 /\ 0 <= d2 <= 9 /\ n = 100 * (n / 100) + 10 * d1 + d2 /\
    Number.fixed2 n
    = (Number.digits (n / 100) ++ "." ++
       String (Number.digit d1) (String (Number.digit d2) EmptyString))%string.
Proof.
  intros Hn. exists (n mod 100 / 10), (n mod 10).
  pose proof (Z.mod_pos_bound n 100 ltac:(lia)) as B.
  pose proof (Z.div_mod n 100 ltac:(lia)) as D.
  pose proof (Z.div_mod (n mod 100) 10 ltac:(lia)) as D'.
  pose proof (Z.mod_pos_bound (n mod 100) 10 ltac:(lia)) as B'.
  assert (M : n mod 10 = (n mod 100) mod 10).
  { pose proof (Z.rem_mul_r n 10 10 ltac:(lia) ltac:(lia)) as R.
    change (10 * 10) with 100 in R.
    apply Z.mod_unique with (q := (n / 10) mod 10); [|lia].
    left. apply Z.mod_pos_bound. lia. }
  repeat split; lia.
Qed.

(** What [toFixed(2)] writes for a positive finite double [m * 2^e]: the
    nearest number of hundredths, with two decimals. *)
Lemma toFixed2_finite (x : float) (m : positive) (e : Z) :
  Prim2SF x = S754_finite false m e ->
  Number.toFixed2 x = Number.fixed2 (Number.hundredths m e).
Proof. unfold Number.toFixed2. now intros ->. Qed.

(** C6. [stats()] reports the counters and the size as they are; with no
    read yet the hit rate is the zero value ["0%"] (["0.00%"] on the
    frontend); after a read it is [hits / (hits + misses) * 100] written
    by [toFixed(2)] and followed by [%]: the hundredths nearest to the
    double, with two decimals, so a third of the reads being hits reads
    ["33.33%"].  [clear()] empties the store and zeroes the four
    counters, and [stats()] then reports size 0. *)
Theorem stats_and_clear (c : InMemoryCache) :
  let s := Cache.stats c in
  let total := hits (_stats c) + misses (_stats c) in
  (CacheStats.size s = JsMap.size (cache c) /\
   CacheStats.hits s = hits (_stats c) /\
   CacheStats.misses s = misses (_stats c) /\
   CacheStats.sets s = sets (_stats c) /\
   CacheStats.deletes s = deletes (_stats c)) /\
  CacheStats.hitRate s
  = (if 0 <? total then (Number.toFixed2 (hitPercent (_stats c)) ++ "%")%string
     else match impl c with Backend => "0%" | Frontend => "0.00%" end) /\
  (forall m e,
      0 < total ->
      Prim2SF (hitPercent (_stats c)) = S754_finite false m e ->
      let n := Number.hundredths m e in
      CacheStats.hitRate s = (Number.fixed2 n ++ "%")%string /\
      (e < 0 -> (2 * n - 1) * 2 ^ (- e) <= 200 * Z.pos m < (2 * n + 1) * 2 ^ (- e)) /\
      (0 <= e -> n = 100 * Z.pos m * 2 ^ e)) /\
  (forall h m st dl,
      _stats c = mkStats h m st dl ->
      (h = 1 /\ m = 2 -> CacheStats.hitRate s = "33.33%") /\
      (h = 2 /\ m = 1 -> CacheStats.hitRate s = "66.67%") /\
      (h = 1 /\ m = 799 -> CacheStats.hitRate s = "0.13%") /\
      (h = 5 /\ m = 0 -> CacheStats.hitRate s = "100.00%") /\
      (h = 0 /\ m = 4 -> CacheStats.hitRate s = "0.00%")) /\
  cache (Cache.clear c) = [] /\
  _stats (Cache.clear c) = mkStats 0 0 0 0 /\
  CacheStats.size (Cache.stats (Cache.clear c)) = 0 /\
  CacheStats.hits (Cache.stats (Cache.clear c)) = 0 /\
  CacheStats.misses (Cache.stats (Cache.clear c)) = 0 /\
  CacheStats.sets (Cache.stats (Cache.clear c)) = 0 /\
  CacheStats.deletes (Cache.stats (Cache.clear c)) = 0.
Proof.
  cbv zeta. split; [repeat split|]. split.
  { unfold Cache.stats, hitPercent. simpl.
    destruct (0 <? hits (_stats c) + misses (_stats c)); [reflexivity|].
    destruct (impl c); reflexivity. }
  split.
  { intros m e Htotal Hx. cbv zeta.
    pose proof (hundredths_nearest m e) as N. cbv zeta in N.
    split; [|split].
    - unfold Cache.stats. simpl. apply Z.ltb_lt in Htotal. rewrite Htotal.
      fold (hitPercent (_stats c)). now rewrite (toFixed2_finite _ m e Hx).
    - intros He. apply Z.leb_gt in He. now rewrite He in N.
    - intros He. apply Z.leb_le in He. now rewrite He in N. }
  split; [|repeat split].
  intros h m st dl E. unfold Cache.stats. simpl. rewrite E. simpl.
  repeat split; intros [-> ->]; vm_compute; reflexivity.
Qed.

(** ** The collection helpers *)

(** [get] on a key whose read reports absence leaves no live entry
    behind: the key reads as absent from then on. *)
Lemma get_null_stays_null c key now later :
  cache_wf c ->
  fst (Cache.get c key now) = VNull ->
  fst (Cache.get (snd (Cache.get c key now)) key later) = VNull.
Proof.
  unfold cache_wf, Cache.get. intros W.
  destruct (JsMap.get (cache c) key) as [e|] eqn:G; simpl.
  - destruct (Cache.expired now e) eqn:X; simpl.
    + intros _. now rewrite get_delete_same.
    + intros V. rewrite G. destruct (Cache.expired later e); simpl; congruence.
  - intros _. now rewrite G.
Qed.

Lemma get_other_keys c key now k :
  k <> key ->
  JsMap.get (cache (snd (Cache.get c key now))) k = JsMap.get (cache c) k.
Proof.
  intros Hne. unfold Cache.get.
  destruct (JsMap.get (cache c) key) as [e|]; [|reflexivity].
  destruct (Cache.expired now e); simpl; [|reflexivity].
  apply get_delete_other. congruence.
Qed.

(** A read that finds a live entry returns its value and leaves the store
    as it is. *)
Lemma get_live c key now e :
  JsMap.get (cache c) key = Some e -> Cache.expired now e = false ->
  Cache.get c key now = (value_of e, Cache.with_stats c (Cache.hit (_stats c))).
Proof. unfold Cache.get. now intros -> ->. Qed.

(** C7. [addToArray] on a key whose read reports absence stores nothing:
    the cache is the one the read left, the key still reads as absent at
    any later time, and the other keys are untouched.  On a key holding a
    live array of length N the key is set again, to the array with the item
    appended (length N + 1, the item in it), with a fresh creation time and
    the TTL that a [set] without a TTL argument resolves. *)
Theorem addToArray_spec (c : InMemoryCache) (arrayKey : string) (it : item)
        (tz now : Z) :
  cache_wf c ->
  (fst (Cache.get c arrayKey now) = VNull ->
   Cache.addToArray c arrayKey it tz now = Some (snd (Cache.get c arrayKey now)) /\
   (forall later,
       fst (Cache.get (snd (Cache.get c arrayKey now)) arrayKey later) = VNull) /\
   (forall k, k <> arrayKey ->
       JsMap.get (cache (snd (Cache.get c arrayKey now))) k = JsMap.get (cache c) k) /\
   sets (_stats (snd (Cache.get c arrayKey now))) = sets (_stats c)) /\
  (forall e l,
      JsMap.get (cache c) arrayKey = Some e ->
      Cache.expired now e = false ->
      value_of e = VArr l ->
      exists c',
        Cache.addToArray c arrayKey it tz now = Some c' /\
        JsMap.get (cache c') arrayKey
        = Some (entry_with_ttl (VArr (l ++ [it])) now
                               (Cache.resolveTTL c None tz now)) /\
        List.length (l ++ [it]) = S (List.length l) /\
        In it (l ++ [it]) /\
        sets (_stats c') = sets (_stats c) + 1).
Proof.
  intros W. split.
  - intros Hnull. split; [|split; [|split]].
    + unfold Cache.addToArray.
      destruct (Cache.get c arrayKey now) as [cached c1] eqn:G.
      simpl in Hnull. subst cached. reflexivity.
    + intros later. now apply get_null_stays_null.
    + intros k Hne. now apply get_other_keys.
    + unfold Cache.get. destruct (JsMap.get (cache c) arrayKey) as [e|]; [|reflexivity].
      destruct (Cache.expired now e); reflexivity.
  - intros e l G X V.
    unfold Cache.addToArray. rewrite (get_live c arrayKey now e G X), V.
    cbn [truthy negb]. eexists. split; [reflexivity|].
    split; [rewrite set_stores; reflexivity|].
    split; [rewrite length_app; simpl; lia|].
    split; [apply in_or_app; right; now left | reflexivity].
Qed.

Lemma one_book_wf : cache_wf one_book.
Proof. unfold one_book. auto with cache_wf. Qed.

Lemma addToArray_spec_witness :
  cache_wf one_book /\
  (Cache.addToArray one_book "users:all" (mkItem "8" "Persuasion") 0 1000500
   = Some (snd (Cache.get one_book "users:all" 1000500)) /\
   (forall later,
       fst (Cache.get (snd (Cache.get one_book "users:all" 1000500))
                      "users:all" later) = VNull) /\
   (forall k, k <> "users:all" ->
       JsMap.get (cache (snd (Cache.get one_book "users:all" 1000500))) k
       = JsMap.get (cache one_book) k) /\
   sets (_stats (snd (Cache.get one_book "users:all" 1000500)))
   = sets (_stats one_book)) /\
  (exists c',
      Cache.addToArray one_book "books:all" (mkItem "8" "Persuasion") 0 1000500
      = Some c' /\
      JsMap.get (cache c') "books:all"
      = Some (entry_with_ttl (VArr [mkItem "7" "Emma"; mkItem "8" "Persuasion"])
                             1000500 (Cache.resolveTTL one_book None 0 1000500)) /\
      List.length [mkItem "7" "Emma"; mkItem "8" "Persuasion"] = 2%nat /\
      In (mkItem "8" "Persuasion") [mkItem "7" "Emma"; mkItem "8" "Persuasion"] /\
      sets (_stats c') = sets (_stats one_book) + 1).
Proof.
  split; [exact one_book_wf|]. split.
  - exact (proj1 (addToArray_spec one_book "users:all" (mkItem "8" "Persuasion")
                                  0 1000500 one_book_wf) eq_refl).
  - exact (proj2 (addToArray_spec one_book "books:all" (mkItem "8" "Persuasion")
                                  0 1000500 one_book_wf)
                 (mkEntry (VArr [mkItem "7" "Emma"]) 1000000 (Some 4600000))
                 [mkItem "7" "Emma"] eq_refl eq_refl eq_refl).
Defined.

(** The two cases of the example on this cache. *)
Example addToArray_cold_and_warm :
  Cache.addToArray one_book "users:all" (mkItem "8" "Persuasion") 0 1000500
  = Some (snd (Cache.get one_book "users:all" 1000500)) /\
  option_map (fun c' => fst (Cache.get c' "books:all" 1000600))
             (Cache.addToArray one_book "books:all" (mkItem "8" "Persuasion") 0 1000500)
  = Some (VArr [mkItem "7" "Emma"; mkItem "8" "Persuasion"]).
Proof. split; reflexivity. Qed.

Lemma without_length id_ l :
  (List.length (without id_ l) + occurrences id_ l)%nat = List.length l.
Proof.
  unfold without, occurrences.
  rewrite Nat.add_comm. apply filter_partition_length.
Qed.

Lemma without_absent id_ l : occurrences id_ l = 0%nat -> without id_ l = l.
Proof.
  unfold without, occurrences. induction l as [|i l IH]; simpl; [reflexivity|].
  destruct (String.eqb (id i) id_); simpl; [discriminate|].
  intros H. f_equal. now apply IH.
Qed.

Lemma without_spec id_ l i :
  In i (without id_ l) <-> In i l /\ id i <> id_.
Proof.
  unfold without. rewrite filter_In.
  destruct (String.eqb_spec (id i) id_); simpl; intuition congruence.
Qed.

(** C3, as the claim states it, fails: [addToArray] does not look for the
    id, so a cached array can hold an id twice, and [removeFromArray] then
    takes both records out; here the length drops from 2 to 0. *)
Lemma removeFromArray_removes_two :
  option_map (fun c => fst (Cache.get c "books:all" 1000600)) two_sevens
  = Some (VArr [mkItem "7" "Emma"; mkItem "7" "Emma, 2nd ed."]) /\
  (exists c c',
      two_sevens = Some c /\
      Cache.removeFromArray c "books:all" "7" 0 1000700 = Some c' /\
      fst (Cache.get c' "books:all" 1000800) = VArr [] /\
      ~ (List.length [mkItem "7" "Emma"; mkItem "7" "Emma, 2nd ed."]
         <= S (List.length (@nil item)))%nat).
Proof.
  split; [reflexivity|]. eexists. eexists.
  split; [reflexivity|]. split; [reflexivity|]. split; [reflexivity|].
  simpl. lia.
Qed.

(** C3, amended.  [removeFromArray] on a key holding a live array sets the
    key again, to the array without the records that carry the id, all of
    them: the length drops by the number of occurrences of the id, which is
    1 when the id occurs once; when the id does not occur the array is set
    again with the same records.  On a key whose read reports absence
    nothing is stored: the cache is the one the read left, and the key still
    reads as absent. *)
Theorem removeFromArray_spec (c : InMemoryCache) (arrayKey id_ : string)
        (tz now : Z) :
  cache_wf c ->
  (fst (Cache.get c arrayKey now) = VNull ->
   Cache.removeFromArray c arrayKey id_ tz now = Some (snd (Cache.get c arrayKey now)) /\
   (forall later,
       fst (Cache.get (snd (Cache.get c arrayKey now)) arrayKey later) = VNull) /\
   (forall k, k <> arrayKey ->
       JsMap.get (cache (snd (Cache.get c arrayKey now))) k = JsMap.get (cache c) k)) /\
  (forall e l,
      JsMap.get (cache c) arrayKey = Some e ->
      Cache.expired now e = false ->
      value_of e = VArr l ->
      exists c',
        Cache.removeFromArray c arrayKey id_ tz now = Some c' /\
        JsMap.get (cache c') arrayKey
        = Some (entry_with_ttl (VArr (without id_ l)) now
                               (Cache.resolveTTL c None tz now)) /\
        (forall i, In i (without id_ l) <-> In i l /\ id i <> id_) /\
        (List.length (without id_ l) + occurrences id_ l)%nat = List.length l /\
        (occurrences id_ l = 1%nat ->
         S (List.length (without id_ l)) = List.length l) /\
        (occurrences id_ l = 0%nat -> without id_ l = l)).
Proof.
  intros W. split.
  - intros Hnull. split; [|split].
    + unfold Cache.removeFromArray.
      destruct (Cache.get c arrayKey now) as [cached c1] eqn:G.
      simpl in Hnull. subst cached. reflexivity.
    + intros later. now apply get_null_stays_null.
    + intros k Hne. now apply get_other_keys.
  - intros e l G X V.
    unfold Cache.removeFromArray. rewrite (get_live c arrayKey now e G X), V.
    cbn [truthy negb]. eexists. split; [reflexivity|].
    split; [rewrite set_stores; reflexivity|].
    split; [intros i; apply without_spec|].
    pose proof (without_length id_ l) as L.
    split; [exact L|]. split; [lia | apply without_absent].
Qed.

Lemma removeFromArray_spec_witness :
  cache_wf one_book /\
  (Cache.removeFromArray one_book "users:all" "7" 0 1000500
   = Some (snd (Cache.get one_book "users:all" 1000500)) /\
   (forall later,
       fst (Cache.get (snd (Cache.get one_book "users:all" 1000500))
                      "users:all" later) = VNull) /\
   (forall k, k <> "users:all" ->
       JsMap.get (cache (snd (Cache.get one_book "users:all" 1000500))) k
       = JsMap.get (cache one_book) k)) /\
  (exists c',
      Cache.removeFromArray one_book "books:all" "7" 0 1000500 = Some c' /\
      JsMap.get (cache c') "books:all"
      = Some (entry_with_ttl (VArr []) 1000500
                             (Cache.resolveTTL one_book None 0 1000500)) /\
      (forall i, In i (without "7" [mkItem "7" "Emma"])
                 <-> In i [mkItem "7" "Emma"] /\ id i <> "7") /\
      (0 + 1)%nat = 1%nat /\
      (occurrences "7" [mkItem "7" "Emma"] = 1%nat -> 1%nat = 1%nat) /\
      (occurrences "7" [mkItem "7" "Emma"] = 0%nat ->
       without "7" [mkItem "7" "Emma"] = [mkItem "7" "Emma"])).
Proof.
  split; [exact one_book_wf|]. split.
  - exact (proj1 (removeFromArray_spec one_book "users:all" "7" 0 1000500 one_book_wf)
                 eq_refl).
  - exact (proj2 (removeFromArray_spec one_book "books:all" "7" 0 1000500 one_book_wf)
                 (mkEntry (VArr [mkItem "7" "Emma"]) 1000000 (Some 4600000))
                 [mkItem "7" "Emma"] eq_refl eq_refl eq_refl).
Defined.

(** ** Pattern invalidation *)

(** The example of the spec. *)
Example deletePattern_books :
  option_map (fun r => (fst r, keysOf (snd r), deletes (_stats (snd r))))
             (Cache.deletePattern (with_keys ["books:all"; "books:5"; "users:all"])
                                  "books:*")
  = Some (2, ["users:all"], 2).
Proof. reflexivity. Qed.

(** C5. The compiled pattern is anchored at both ends, but the characters
    of the glob other than [*] and [?] are not escaped: the [.] of the glob
    [books:v1.0] is the wildcard of the regular expression, so
    [deletePattern("books:v1.0")] removes the key [books:v1x0] besides
    [books:v1.0] and returns 2.  (By the claim only [*] and [?] are
    wildcards, and the one matching key is removed.) *)
Theorem deletePattern_dot_is_wildcard :
  Cache.globSource "books:v1.0" = "^books:v1.0$" /\
  RegExp.parse "^books:v1.0$"
  = Some (RegExp.Begin ::
          List.map RegExp.Lit ["b"; "o"; "o"; "k"; "s"; ":"; "v"; "1"]%char
          ++ [RegExp.Any; RegExp.Lit "0"; RegExp.End]) /\
  option_map (fun r => (fst r, keysOf (snd r)))
             (Cache.deletePattern
                (with_keys ["books:v1.0"; "books:v1x0"; "users:all"]) "books:v1.0")
  = Some (2, ["users:all"]).
Proof. repeat split; reflexivity. Qed.

(** *** Globs whose characters have no meaning in a regular expression *)

Lemma compiled_head_not_star pattern :
  exists a t,
    (replaceAll "?" "." (replaceAll "*" ".*" pattern) ++ "$")%string = String a t /\
    Ascii.eqb a "*" = false.
Proof.
  destruct pattern as [|c p]; simpl.
  - eexists. eexists. split; reflexivity.
  - destruct (Ascii.eqb_spec c "*") as [->|Hs]; simpl.
    + eexists. eexists. split; reflexivity.
    + destruct (Ascii.eqb_spec c "?") as [->|Hq]; simpl.
      * eexists. eexists. split; reflexivity.
      * eexists. eexists. split; [reflexivity|].
        now apply Ascii.eqb_neq.
Qed.

Lemma not_syntax_character c :
  RegExp.isSyntaxCharacter c = false ->
  Ascii.eqb c "." = false /\ Ascii.eqb c "^" = false /\ Ascii.eqb c "$" = false /\
  Ascii.eqb c "*" = false /\ Ascii.eqb c "?" = false.
Proof.
  unfold RegExp.isSyntaxCharacter. simpl. intros H.
  repeat (apply orb_false_iff in H; destruct H as [? H]). tauto.
Qed.

Lemma parse_plain_glob pattern :
  plain_glob pattern = true ->
  RegExp.parse (replaceAll "?" "." (replaceAll "*" ".*" pattern) ++ "$")%string
  = Some (glob_terms pattern ++ [RegExp.End]).
Proof.
  unfold plain_glob. induction pattern as [|c p IH]; [reflexivity|].
  cbn [string_forallb]. intros H. apply andb_true_iff in H. destruct H as [Hc Hp].
  specialize (IH Hp).
  destruct (compiled_head_not_star p) as (a & t & Ht & Ha).
  cbn [replaceAll glob_terms].
  destruct (Ascii.eqb_spec c "*") as [->|Hs].
  - cbn. cbn in IH. now rewrite IH.
  - cbn [replaceAll]. destruct (Ascii.eqb_spec c "?") as [->|Hq].
    + cbn [String.append RegExp.parse Ascii.eqb Bool.eqb].
      rewrite Ht in *. rewrite Ha. now rewrite IH.
    + simpl in Hc.
      apply negb_true_iff in Hc.
      destruct (not_syntax_character c Hc) as (D & B & E & _ & _).
      cbn [String.append RegExp.parse]. rewrite D, B, E, Hc. now rewrite IH.
Qed.

Lemma parse_globSource pattern :
  plain_glob pattern = true ->
  RegExp.parse (Cache.globSource pattern)
  = Some (RegExp.Begin :: glob_terms pattern ++ [RegExp.End]).
Proof.
  intros H. unfold Cache.globSource.
  cbn [String.append RegExp.parse Ascii.eqb Bool.eqb].
  now rewrite parse_plain_glob.
Qed.

Lemma searchFrom_Begin r s : RegExp.searchFrom (RegExp.Begin :: r) false s = false.
Proof. induction s as [|a s IH]; simpl; [reflexivity | exact IH]. Qed.

(** A pattern that starts with [^] matches at the start of the key or
    nowhere. *)
Lemma test_anchored r s :
  RegExp.test (RegExp.Begin :: r) s = RegExp.matchHere r true s.
Proof.
  unfold RegExp.test. destruct s as [|a s]; simpl.
  - now rewrite orb_false_r.
  - now rewrite searchFrom_Begin, orb_false_r.
Qed.

Lemma star_glob_star (k : bool -> string -> bool) (g : string -> bool) :
  (forall b s, no_line_terminator s = true -> k b s = g s) ->
  forall b s, no_line_terminator s = true -> RegExp.star k b s = glob_star g s.
Proof.
  intros Hk b s. revert b. induction s as [|a s IH]; intros b Hs; simpl.
  - now rewrite (Hk b EmptyString Hs).
  - rewrite (Hk b _ Hs). unfold no_line_terminator in Hs. simpl in Hs.
    apply andb_true_iff in Hs. destruct Hs as [Ha Hs]. rewrite Ha. simpl.
    now rewrite IH.
Qed.

Lemma matchHere_glob pattern :
  forall b s, no_line_terminator s = true ->
  RegExp.matchHere (glob_terms pattern ++ [RegExp.End]) b s = glob_match pattern s.
Proof.
  induction pattern as [|c p IH]; intros b s Hs.
  - destruct s; reflexivity.
  - cbn [glob_terms glob_match app].
    destruct (Ascii.eqb_spec c "*") as [->|Hstar].
    + cbn [RegExp.matchHere]. now apply star_glob_star.
    + destruct (Ascii.eqb_spec c "?") as [->|Hq]; cbn [RegExp.matchHere orb].
      * destruct s as [|a s]; [reflexivity|].
        unfold no_line_terminator in Hs. simpl in Hs.
        apply andb_true_iff in Hs. destruct Hs as [Ha Hs]. rewrite Ha. simpl.
        now apply IH.
      * destruct s as [|a s]; [reflexivity|].
        unfold no_line_terminator in Hs. simpl in Hs.
        apply andb_true_iff in Hs. destruct Hs as [Ha Hs].
        f_equal. now apply IH.
Qed.

(** On a plain glob and a key without line terminators the compiled
    pattern and the glob agree. *)
Lemma compiled_glob_agrees pattern :
  plain_glob pattern = true ->
  exists regex,
    RegExp.parse (Cache.globSource pattern) = Some regex /\
    forall key, no_line_terminator key = true ->
                RegExp.test regex key = glob_match pattern key.
Proof.
  intros H. eexists. split; [now apply parse_globSource|].
  intros key Hk. rewrite test_anchored. now apply matchHere_glob.
Qed.

Lemma filter_ext_in_keys {V : Type} (f g : string -> bool) (m : JsMap.t V) :
  (forall k, In k (JsMap.keys m) -> f k = g k) ->
  List.filter (fun kv => f (fst kv)) m = List.filter (fun kv => g (fst kv)) m.
Proof.
  intros H. apply filter_ext_in. intros [k v] I. simpl. apply H.
  apply in_map_iff. exists (k, v). auto.
Qed.

(** X24. [deletePattern] with a plain glob, on keys without line
    terminators, removes the keys that match the glob and no other, keeps
    the order of the rest, returns the number of keys removed and adds it to
    [deletes]. *)
Lemma deletePattern_plain_glob (c : InMemoryCache) (pattern : string) :
  cache_wf c ->
  plain_glob pattern = true ->
  (forall k, In k (keysOf c) -> no_line_terminator k = true) ->
  exists n c',
    Cache.deletePattern c pattern = Some (n, c') /\
    cache c' = List.filter (fun kv => negb (glob_match pattern (fst kv))) (cache c) /\
    n = Z.of_nat (List.length
                    (List.filter (fun kv => glob_match pattern (fst kv)) (cache c))) /\
    n = JsMap.size (cache c) - JsMap.size (cache c') /\
    deletes (_stats c') = deletes (_stats c) + n.
Proof.
  intros W Hp Hk.
  destruct (compiled_glob_agrees pattern Hp) as (regex & Hparse & Hagree).
  unfold Cache.deletePattern. rewrite Hparse.
  rewrite sweep_filter by exact W.
  eexists. eexists. split; [reflexivity|]. cbn [cache _stats Cache.with_stats Cache.with_cache Cache.did_delete deletes].
  assert (E1 : List.filter (fun kv : string * CacheEntry => RegExp.test regex (fst kv)) (cache c)
               = List.filter (fun kv => glob_match pattern (fst kv)) (cache c)).
  { apply filter_ext_in_keys. intros k I. apply Hagree. now apply Hk. }
  assert (E2 : List.filter (fun kv : string * CacheEntry => negb (RegExp.test regex (fst kv))) (cache c)
               = List.filter (fun kv => negb (glob_match pattern (fst kv))) (cache c)).
  { apply (filter_ext_in_keys (fun k => negb (RegExp.test regex k))
                              (fun k => negb (glob_match pattern k))).
    intros k I. f_equal. apply Hagree. now apply Hk. }
  rewrite E1, E2. repeat split.
  unfold JsMap.size.
  pose proof (filter_partition_length
                (fun kv : string * CacheEntry => glob_match pattern (fst kv)) (cache c)).
  lia.
Qed.

Lemma deletePattern_plain_glob_witness :
  (cache_wf (with_keys ["books:all"; "users:all"; "books:5"]) /\
   plain_glob "books:*" = true /\
   (forall k, In k (keysOf (with_keys ["books:all"; "users:all"; "books:5"])) ->
              no_line_terminator k = true)) /\
  exists n c',
    Cache.deletePattern (with_keys ["books:all"; "users:all"; "books:5"]) "books:*"
    = Some (n, c') /\
    cache c' = List.filter (fun kv => negb (glob_match "books:*" (fst kv)))
                           (cache (with_keys ["books:all"; "users:all"; "books:5"])) /\
    n = Z.of_nat (List.length
                    (List.filter (fun kv => glob_match "books:*" (fst kv))
                                 (cache (with_keys ["books:all"; "users:all"; "books:5"])))) /\
    n = JsMap.size (cache (with_keys ["books:all"; "users:all"; "books:5"]))
        - JsMap.size (cache c') /\
    deletes (_stats c')
    = deletes (_stats (with_keys ["books:all"; "users:all"; "books:5"])) + n.
Proof.
  assert (H1 : cache_wf (with_keys ["books:all"; "users:all"; "books:5"])).
  { unfold with_keys. simpl. auto with cache_wf. }
  assert (H3 : forall k, In k (keysOf (with_keys ["books:all"; "users:all"; "books:5"])) ->
                         no_line_terminator k = true).
  { intros k [<-|[<-|[<-|[]]]]; reflexivity. }
  split; [exact (conj H1 (conj eq_refl H3))|].
  exact (deletePattern_plain_glob (with_keys ["books:all"; "users:all"; "books:5"])
           "books:*" H1 eq_refl H3).
Defined.

(** ** The factory *)



(** The type [memory], also as the default of a missing or empty type,
    builds the in-memory cache of the backend from the options. *)
Lemma create_memory (o : CacheOptions) :
  CacheFactory.create CacheFactory.cacheTypes (config_of "memory" o)
  = CacheFactory.Returned (CacheFactory.Memory (Cache.new Backend o)) /\
  CacheFactory.create CacheFactory.cacheTypes (CacheFactory.mkConfig None (Some o))
  = CacheFactory.Returned (CacheFactory.Memory (Cache.new Backend o)) /\
  CacheFactory.create CacheFactory.cacheTypes (config_of "" o)
  = CacheFactory.Returned (CacheFactory.Memory (Cache.new Backend o)).
Proof. repeat split; reflexivity. Qed.

(** After [register(name, C)] the factory builds [name] with [new C]. *)
Lemma create_registered (r : CacheFactory.registry) (name : string)
      (C : CacheFactory.CacheClass) (o : CacheOptions) :
  name <> "" -> name <> "__proto__" ->
  exists r',
    CacheFactory.register r name (CacheFactory.Class C) = Some r' /\
    CacheFactory.create r' (config_of name o)
    = CacheFactory.construct (CacheFactory.Class C) o.
Proof.
  intros Hne Hproto. unfold CacheFactory.register.
  apply String.eqb_neq in Hproto. rewrite Hproto.
  eexists. split; [reflexivity|].
  unfold CacheFactory.create, CacheFactory.lookup, config_of. simpl.
  apply String.eqb_neq in Hne. rewrite Hne. now rewrite get_set_same.
Qed.

(** C8. The type [constructor] is not registered, yet [create] does not
    throw for it: the registry is an object literal, the lookup finds the
    [constructor] it inherits, which is [Object], and [new Object(options)]
    returns the options object; [getCache] hands it out as the cache.  (By
    the claim an unknown type is a fatal error at construction.) *)
Theorem create_constructor_does_not_throw (o : CacheOptions) :
  JsMap.has CacheFactory.cacheTypes "constructor" = false /\
  CacheFactory.lookup CacheFactory.cacheTypes "constructor"
  = CacheFactory.ObjectConstructor /\
  CacheFactory.create CacheFactory.cacheTypes (config_of "constructor" o)
  = CacheFactory.Returned (CacheFactory.PlainObject o) /\
  CacheFactory.getCache CacheFactory.cacheTypes (config_of "constructor" o) None
  = (CacheFactory.Returned (CacheFactory.PlainObject o),
     Some (CacheFactory.PlainObject o)).
Proof. repeat split; reflexivity. Qed.

(** * Further properties of the code *)

(** ** Reads after writes *)

Lemma entry_with_ttl_live v now ttl later :
  ttl = 0 \/ later <= now + ttl * 1000 ->
  Cache.expired later (entry_with_ttl v now ttl) = false.
Proof.
  unfold Cache.expired, entry_with_ttl. simpl.
  destruct (Z.eqb_spec ttl 0) as [->|Hne]; [reflexivity|].
  intros [H|H]; [contradiction|].
  apply andb_false_iff. right. now apply Z.ltb_ge.
Qed.

Lemma entry_with_ttl_expired v now ttl later :
  0 <= now -> 0 < ttl -> now + ttl * 1000 < later ->
  Cache.expired later (entry_with_ttl v now ttl) = true.
Proof.
  unfold Cache.expired, entry_with_ttl. simpl. intros Hnow Httl Hlater.
  destruct (Z.eqb_spec ttl 0) as [->|Hne]; [lia|].
  apply andb_true_iff. split.
  - apply negb_true_iff. apply Z.eqb_neq. lia.
  - now apply Z.ltb_lt.
Qed.

(** X1. A value that was set is read back until its time is up: after
    [set(key, v, ttlSeconds)] at [now], a [get(key)] at a time not after
    [now + ttl * 1000] (at any time when the resolved TTL is 0) returns [v],
    counts one hit and leaves the store as it is, on both tiers and whatever
    the cache held before. *)
Theorem set_then_get (c : InMemoryCache) (key : string) (v : value)
        (ttlSeconds : option Z) (tz now later : Z) :
  let ttl := Cache.resolveTTL c ttlSeconds tz now in
  let c' := Cache.set c key v ttlSeconds tz now in
  ttl = 0 \/ later <= now + ttl * 1000 ->
  fst (Cache.get c' key later) = v /\
  cache (snd (Cache.get c' key later)) = cache c' /\
  hits (_stats (snd (Cache.get c' key later))) = hits (_stats c) + 1 /\
  misses (_stats (snd (Cache.get c' key later))) = misses (_stats c).
Proof.
  intros ttl c' Hlive.
  pose proof (set_stores c key v ttlSeconds tz now) as G. fold c' ttl in G.
  unfold Cache.get. rewrite G, (entry_with_ttl_live v now ttl later Hlive).
  repeat split.
Qed.

Lemma set_then_get_witness :
  (60 = 0 \/ 1030000 <= 1000000 + 60 * 1000) /\
  fst (Cache.get (Cache.set one_second_entry "books:5" (VStr "Emma") (Some 60) 0 1000000)
                 "books:5" 1030000) = VStr "Emma" /\
  cache (snd (Cache.get (Cache.set one_second_entry "books:5" (VStr "Emma") (Some 60) 0 1000000)
                        "books:5" 1030000))
  = cache (Cache.set one_second_entry "books:5" (VStr "Emma") (Some 60) 0 1000000) /\
  hits (_stats (snd (Cache.get
                       (Cache.set one_second_entry "books:5" (VStr "Emma") (Some 60) 0 1000000)
                       "books:5" 1030000))) = 0 + 1 /\
  misses (_stats (snd (Cache.get
                         (Cache.set one_second_entry "books:5" (VStr "Emma") (Some 60) 0 1000000)
                         "books:5" 1030000))) = 0.
Proof.
  assert (H : 60 = 0 \/ 1030000 <= 1000000 + 60 * 1000) by (right; lia).
  split; [exact H|].
  exact (set_then_get one_second_entry "books:5" (VStr "Emma") (Some 60) 0
                      1000000 1030000 H).
Defined.

(** X2. Expiry is detected on access: once more than [ttl] seconds have
    passed since a [set] with a positive TTL (at a time after the epoch),
    [get(key)] returns [null], counts a miss and removes the entry, and
    [has(key)] returns [false] and removes it as well. *)
Theorem get_after_expiry (c : InMemoryCache) (key : string) (v : value)
        (ttlSeconds : option Z) (tz now later : Z) :
  let ttl := Cache.resolveTTL c ttlSeconds tz now in
  let c' := Cache.set c key v ttlSeconds tz now in
  cache_wf c -> 0 <= now -> 0 < ttl -> now + ttl * 1000 < later ->
  fst (Cache.get c' key later) = VNull /\
  misses (_stats (snd (Cache.get c' key later))) = misses (_stats c) + 1 /\
  hits (_stats (snd (Cache.get c' key later))) = hits (_stats c) /\
  JsMap.get (cache (snd (Cache.get c' key later))) key = None /\
  fst (Cache.has c' key later) = false /\
  JsMap.get (cache (snd (Cache.has c' key later))) key = None.
Proof.
  intros ttl c' W Hnow Httl Hlater.
  pose proof (set_stores c key v ttlSeconds tz now) as G. fold c' ttl in G.
  pose proof (entry_with_ttl_expired v now ttl later Hnow Httl Hlater) as X.
  assert (W' : JsMap.wf (cache c')) by (apply set_wf; exact W).
  unfold Cache.get, Cache.has. rewrite G, X. simpl.
  repeat split; now apply get_delete_same.
Qed.

Lemma get_after_expiry_witness :
  (cache_wf one_book /\ 0 <= 2000000 /\ 0 < 1 /\ 2000000 + 1 * 1000 < 2001001) /\
  fst (Cache.get (Cache.set one_book "k" (VNum 1) (Some 1) 0 2000000) "k" 2001001)
  = VNull /\
  misses (_stats (snd (Cache.get (Cache.set one_book "k" (VNum 1) (Some 1) 0 2000000)
                                 "k" 2001001))) = 0 + 1 /\
  hits (_stats (snd (Cache.get (Cache.set one_book "k" (VNum 1) (Some 1) 0 2000000)
                               "k" 2001001))) = 0 /\
  JsMap.get (cache (snd (Cache.get (Cache.set one_book "k" (VNum 1) (Some 1) 0 2000000)
                                   "k" 2001001))) "k" = None /\
  fst (Cache.has (Cache.set one_book "k" (VNum 1) (Some 1) 0 2000000) "k" 2001001)
  = false /\
  JsMap.get (cache (snd (Cache.has (Cache.set one_book "k" (VNum 1) (Some 1) 0 2000000)
                                   "k" 2001001))) "k" = None.
Proof.
  assert (H1 : 0 <= 2000000) by lia.
  assert (H2 : 0 < 1) by lia.
  assert (H3 : 2000000 + 1 * 1000 < 2001001) by lia.
  split; [repeat split; try assumption; exact one_book_wf|].
  exact (get_after_expiry one_book "k" (VNum 1) (Some 1) 0 2000000 2001001
                          one_book_wf H1 H2 H3).
Defined.

(** X3. [has] applies the test of [get] and leaves the store [get] leaves,
    without counting: it answers [true] exactly when a [get] of the key at
    that time is a hit, and the statistics stay as they were. *)
Theorem has_agrees_with_get (c : InMemoryCache) (key : string) (now : Z) :
  cache (snd (Cache.has c key now)) = cache (snd (Cache.get c key now)) /\
  _stats (snd (Cache.has c key now)) = _stats c /\
  (fst (Cache.has c key now) = true <->
   hits (_stats (snd (Cache.get c key now))) = hits (_stats c) + 1) /\
  (fst (Cache.has c key now) = false <->
   misses (_stats (snd (Cache.get c key now))) = misses (_stats c) + 1) /\
  (fst (Cache.has c key now) = false -> fst (Cache.get c key now) = VNull).
Proof.
  unfold Cache.has, Cache.get.
  case_lookup c key now; simpl; repeat split; intros; try reflexivity;
    try discriminate; lia.
Qed.

(** ** The sweep *)

Lemma get_filter {V : Type} (q : string * V -> bool) (m : JsMap.t V) k :
  JsMap.wf m ->
  JsMap.get (List.filter q m) k
  = match JsMap.get m k with
    | Some v => if q (k, v) then Some v else None
    | None => None
    end.
Proof.
  unfold JsMap.wf, JsMap.keys.
  induction m as [|[k0 v0] m IH]; simpl; intros W; [reflexivity|].
  inversion W as [|? ? N W']; subst.
  destruct (String.eqb_spec k0 k) as [->|Hne].
  - destruct (q (k, v0)) eqn:Q; simpl.
    + now rewrite String.eqb_refl.
    + apply get_None_iff. intros I. apply N.
      apply in_map_iff in I. destruct I as [[k1 v1] [E I]].
      apply filter_In in I. apply in_map_iff. exists (k1, v1). tauto.
  - destruct (q (k0, v0)); simpl; [|now apply IH].
    destruct (String.eqb_spec k0 k); [congruence | now apply IH].
Qed.

Lemma keys_filter {V : Type} (q : string * V -> bool) (m : JsMap.t V) :
  JsMap.wf m ->
  JsMap.keys (List.filter q m)
  = List.filter (fun k => match JsMap.get m k with
                          | Some v => q (k, v)
                          | None => false
                          end) (JsMap.keys m).
Proof.
  unfold JsMap.wf, JsMap.keys.
  induction m as [|[k v] m IH]; intros W; [reflexivity|].
  simpl in W. inversion W as [|? ? N W']; subst.
  cbn [List.filter List.map fst JsMap.get]. rewrite String.eqb_refl.
  assert (E : List.filter
                (fun k0 => match (if String.eqb k k0 then Some v else JsMap.get m k0) with
                           | Some v0 => q (k0, v0)
                           | None => false
                           end) (List.map fst m)
              = List.filter
                  (fun k0 => match JsMap.get m k0 with
                             | Some v0 => q (k0, v0)
                             | None => false
                             end) (List.map fst m)).
  { apply filter_ext_in. intros k0 I.
    destruct (String.eqb_spec k k0) as [->|]; [contradiction | reflexivity]. }
  rewrite E, <- (IH W').
  destruct (q (k, v)); reflexivity.
Qed.

Lemma filter_idempotent {A : Type} (q : A -> bool) (l : list A) :
  List.filter q (List.filter q l) = List.filter q l.
Proof.
  induction l as [|a l IH]; simpl; [reflexivity|].
  destruct (q a) eqn:Q; simpl; [rewrite Q; f_equal|]; exact IH.
Qed.

(** X4. The sweep removes the expired entries and nothing else: an entry
    is in the store afterwards exactly when it was there and has not
    expired, the survivors keep their order, a second sweep at the same time
    changes nothing, and a read or a presence check right after the sweep
    finds nothing to remove. *)
Theorem cleanup_removes_expired (c : InMemoryCache) (now : Z) :
  cache_wf c ->
  (forall key,
      JsMap.get (cache (Cache._cleanup c now)) key
      = match JsMap.get (cache c) key with
        | Some e => if Cache.expired now e then None else Some e
        | None => None
        end) /\
  keysOf (Cache._cleanup c now)
  = List.filter (fun k => match JsMap.get (cache c) k with
                          | Some e => negb (Cache.expired now e)
                          | None => false
                          end) (keysOf c) /\
  Cache._cleanup (Cache._cleanup c now) now = Cache._cleanup c now /\
  (forall key,
      cache (snd (Cache.get (Cache._cleanup c now) key now))
      = cache (Cache._cleanup c now) /\
      cache (snd (Cache.has (Cache._cleanup c now) key now))
      = cache (Cache._cleanup c now)).
Proof.
  intros W.
  assert (G : forall key,
             JsMap.get (cache (Cache._cleanup c now)) key
             = match JsMap.get (cache c) key with
               | Some e => if Cache.expired now e then None else Some e
               | None => None
               end).
  { intros key. rewrite cleanup_cache by exact W. rewrite get_filter by exact W.
    destruct (JsMap.get (cache c) key) as [e|]; [|reflexivity].
    simpl. now destruct (Cache.expired now e). }
  split; [exact G|]. split; [|split].
  - unfold keysOf. rewrite cleanup_cache by exact W.
    rewrite keys_filter by exact W. apply filter_ext. intros k.
    now destruct (JsMap.get (cache c) k).
  - unfold Cache._cleanup, Cache.with_cache. cbn [cache impl defaultTTL maxSize _stats].
    rewrite (sweep_filter _ (cache c)) by exact W. cbn [fst].
    rewrite sweep_filter by (apply wf_filter; exact W). cbn [fst].
    now rewrite filter_idempotent.
  - intros key. unfold Cache.get, Cache.has. rewrite G.
    destruct (JsMap.get (cache c) key) as [e|]; [|split; reflexivity].
    destruct (Cache.expired now e) eqn:X; [split; reflexivity|].
    rewrite X. split; reflexivity.
Qed.

Lemma cleanup_removes_expired_witness :
  cache_wf one_second_entry /\
  (forall key,
      JsMap.get (cache (Cache._cleanup one_second_entry 1002000)) key
      = match JsMap.get (cache one_second_entry) key with
        | Some e => if Cache.expired 1002000 e then None else Some e
        | None => None
        end) /\
  keysOf (Cache._cleanup one_second_entry 1002000) = [] /\
  Cache._cleanup (Cache._cleanup one_second_entry 1002000) 1002000
  = Cache._cleanup one_second_entry 1002000 /\
  (forall key,
      cache (snd (Cache.get (Cache._cleanup one_second_entry 1002000) key 1002000))
      = cache (Cache._cleanup one_second_entry 1002000) /\
      cache (snd (Cache.has (Cache._cleanup one_second_entry 1002000) key 1002000))
      = cache (Cache._cleanup one_second_entry 1002000)).
Proof.
  split; [exact one_second_entry_wf|].
  exact (cleanup_removes_expired one_second_entry 1002000 one_second_entry_wf).
Defined.

(** ** What a [set] changes *)

Lemma size_keys {V : Type} (m : JsMap.t V) :
  JsMap.size m = Z.of_nat (List.length (JsMap.keys m)).
Proof. unfold JsMap.size, JsMap.keys. now rewrite length_map. Qed.

Lemma size_set {V : Type} (m : JsMap.t V) k v :
  JsMap.size (JsMap.set m k v)
  = JsMap.size m + (if JsMap.has m k then 0 else 1).
Proof.
  rewrite !size_keys. destruct (JsMap.has m k) eqn:E.
  - rewrite keys_set_present by (now apply has_true_iff). lia.
  - rewrite keys_set_absent.
    + rewrite length_app. simpl. lia.
    + intros I. apply has_true_iff in I. congruence.
Qed.

Lemma firstKey_In {V : Type} (m : JsMap.t V) k :
  JsMap.firstKey m = Some k -> In k (JsMap.keys m).
Proof. destruct m as [|[k0 v0] m]; simpl; [discriminate|]. intros [= ->]. now left. Qed.

(** X5. A [set] of a new key into a full cache evicts the oldest entry and
    no other: afterwards the oldest key is gone, every other entry is what
    it was, the new key is the youngest, and the size is unchanged.  (On the
    frontend the oldest key must not be the empty string.) *)
Theorem set_full_evicts_only_oldest (c : InMemoryCache) (key oldest : string)
        (v : value) (ttlSeconds : option Z) (tz now : Z) :
  let c' := Cache.set c key v ttlSeconds tz now in
  cache_wf c ->
  maxSize c <= JsMap.size (cache c) ->
  JsMap.firstKey (cache c) = Some oldest ->
  (impl c = Frontend -> oldest <> "") ->
  ~ In key (keysOf c) ->
  keysOf c' = List.tl (keysOf c) ++ [key] /\
  JsMap.get (cache c') oldest = None /\
  (forall k, k <> key -> k <> oldest ->
             JsMap.get (cache c') k = JsMap.get (cache c) k) /\
  JsMap.size (cache c') = JsMap.size (cache c).
Proof.
  intros c' W Hfull Hfirst Hnonempty Hnew.
  assert (Hfirst' : impl c = Frontend -> JsMap.firstKey (cache c) <> Some "").
  { intros F E. rewrite Hfirst in E. injection E as ->. now apply Hnonempty. }
  assert (Hne : oldest <> key).
  { intros ->. apply Hnew. now apply firstKey_In. }
  assert (E : Cache.evict c = JsMap.delete (cache c) oldest).
  { rewrite evict_full by assumption.
    destruct (cache c) as [|[k0 e0] m]; [discriminate|].
    simpl in Hfirst. injection Hfirst as ->. simpl. now rewrite String.eqb_refl. }
  unfold c', keysOf, Cache.set. cbn [cache Cache.with_stats Cache.with_cache].
  split; [|split; [|split]].
  - rewrite evict_full by assumption.
    unfold keysOf in Hnew.
    destruct (cache c) as [|[k0 e0] m]; [discriminate|].
    simpl in *. apply keys_set_absent. tauto.
  - rewrite E, get_set_other by congruence. now apply get_delete_same.
  - intros k Hk Ho. rewrite E, get_set_other by congruence.
    apply get_delete_other. congruence.
  - rewrite E, size_set.
    rewrite size_delete_present by (now apply firstKey_In).
    destruct (JsMap.has (JsMap.delete (cache c) oldest) key) eqn:H; [|lia].
    apply has_true_iff in H. apply In_keys_delete in H. contradiction.
Qed.

Lemma two_entries_wf : cache_wf two_entries.
Proof. unfold two_entries. auto with cache_wf. Qed.

Lemma set_full_evicts_only_oldest_witness :
  (cache_wf two_entries /\
   maxSize two_entries <= JsMap.size (cache two_entries) /\
   JsMap.firstKey (cache two_entries) = Some "books:all" /\
   (impl two_entries = Frontend -> "books:all" <> "") /\
   ~ In "books:8" (keysOf two_entries)) /\
  keysOf (Cache.set two_entries "books:8" VNull None 0 1000001)
  = ["books:7"; "books:8"] /\
  JsMap.get (cache (Cache.set two_entries "books:8" VNull None 0 1000001)) "books:all"
  = None /\
  (forall k, k <> "books:8" -> k <> "books:all" ->
             JsMap.get (cache (Cache.set two_entries "books:8" VNull None 0 1000001)) k
             = JsMap.get (cache two_entries) k) /\
  JsMap.size (cache (Cache.set two_entries "books:8" VNull None 0 1000001)) = 2.
Proof.
  assert (H1 : maxSize two_entries <= JsMap.size (cache two_entries))
    by (vm_compute; discriminate).
  assert (H2 : impl two_entries = Frontend -> "books:all" <> "") by discriminate.
  assert (H3 : ~ In "books:8" (keysOf two_entries))
    by (simpl; intuition discriminate).
  split; [repeat split; try assumption; exact two_entries_wf|].
  exact (set_full_evicts_only_oldest two_entries "books:8" "books:all" VNull None 0
           1000001 two_entries_wf H1 eq_refl H2 H3).
Defined.

Lemma set_room_size (c : InMemoryCache) (key : string) (v : value)
      (ttlSeconds : option Z) (tz now : Z) :
  JsMap.size (cache c) < maxSize c ->
  JsMap.size (cache (Cache.set c key v ttlSeconds tz now)) <= maxSize c.
Proof.
  intros Hroom. unfold Cache.set. cbn [cache Cache.with_stats Cache.with_cache].
  rewrite evict_room by exact Hroom. rewrite size_set.
  destruct (JsMap.has (cache c) key); lia.
Qed.

(** X6. A [set] into a cache with room left changes its own key and
    nothing else: every other entry is what it was, a key that was present
    keeps its place in the order, a new key becomes the youngest, and the
    size grows by one for a new key only. *)
Theorem set_with_room (c : InMemoryCache) (key : string) (v : value)
        (ttlSeconds : option Z) (tz now : Z) :
  let c' := Cache.set c key v ttlSeconds tz now in
  JsMap.size (cache c) < maxSize c ->
  (forall k, k <> key -> JsMap.get (cache c') k = JsMap.get (cache c) k) /\
  keysOf c' = (if JsMap.has (cache c) key then keysOf c else keysOf c ++ [key]) /\
  JsMap.size (cache c')
  = JsMap.size (cache c) + (if JsMap.has (cache c) key then 0 else 1) /\
  JsMap.size (cache c') <= maxSize c.
Proof.
  intros c' Hroom.
  assert (E : cache c' = JsMap.set (cache c) key
                (entry_with_ttl v now (Cache.resolveTTL c ttlSeconds tz now))).
  { unfold c', Cache.set. cbn [cache Cache.with_stats Cache.with_cache].
    now rewrite evict_room. }
  split; [|split; [|split]].
  - intros k Hk. rewrite E. apply get_set_other. congruence.
  - now apply set_below_capacity.
  - rewrite E. apply size_set.
  - rewrite E, size_set. destruct (JsMap.has (cache c) key); lia.
Qed.

Lemma set_with_room_witness :
  JsMap.size (cache one_book) < maxSize one_book /\
  (forall k, k <> "books:7" ->
             JsMap.get (cache (Cache.set one_book "books:7" VNull None 0 1000001)) k
             = JsMap.get (cache one_book) k) /\
  keysOf (Cache.set one_book "books:7" VNull None 0 1000001) = ["books:all"; "books:7"] /\
  JsMap.size (cache (Cache.set one_book "books:7" VNull None 0 1000001)) = 1 + 1 /\
  JsMap.size (cache (Cache.set one_book "books:7" VNull None 0 1000001)) <= 100.
Proof.
  assert (H : JsMap.size (cache one_book) < maxSize one_book) by (vm_compute; reflexivity).
  split; [exact H|].
  exact (set_with_room one_book "books:7" VNull None 0 1000001 H).
Defined.

(** ** Invariants of a run *)

Lemma size_delete_le {V : Type} (m : JsMap.t V) k :
  JsMap.size (JsMap.delete m k) <= JsMap.size m.
Proof.
  destruct (in_dec string_dec k (JsMap.keys m)) as [I|N].
  - rewrite size_delete_present by exact I. lia.
  - rewrite delete_absent by exact N. lia.
Qed.

Lemma size_filter_le {V : Type} (q : string * V -> bool) (m : JsMap.t V) :
  JsMap.size (List.filter q m) <= JsMap.size m.
Proof.
  unfold JsMap.size. pose proof (filter_partition_length q m). lia.
Qed.

Lemma In_keys_filter {V : Type} (q : string * V -> bool) (m : JsMap.t V) k :
  In k (JsMap.keys (List.filter q m)) -> In k (JsMap.keys m).
Proof.
  unfold JsMap.keys. intros I. apply in_map_iff in I. destruct I as [[k0 v0] [E I]].
  apply filter_In in I. apply in_map_iff. exists (k0, v0). tauto.
Qed.

Lemma deletePattern_cache c pattern n c' :
  cache_wf c ->
  Cache.deletePattern c pattern = Some (n, c') ->
  exists regex,
    RegExp.parse (Cache.globSource pattern) = Some regex /\
    cache c' = List.filter (fun kv => negb (RegExp.test regex (fst kv))) (cache c) /\
    n = Z.of_nat (List.length
                    (List.filter (fun kv => RegExp.test regex (fst kv)) (cache c))) /\
    _stats c' = Cache.did_delete n (_stats c) /\
    impl c' = impl c /\ maxSize c' = maxSize c /\ defaultTTL c' = defaultTTL c.
Proof.
  unfold Cache.deletePattern, cache_wf. intros W H.
  destruct (RegExp.parse (Cache.globSource pattern)) as [regex|]; [|discriminate].
  rewrite sweep_filter in H by exact W. injection H as <- <-.
  exists regex. repeat split.
Qed.

(** What a call that is not a [set] does to the store: it only takes
    bindings out. *)
Lemma step_shrinks c o :
  cache_wf c -> is_set o = false ->
  JsMap.size (cache (step c o)) <= JsMap.size (cache c) /\
  (forall k, In k (keysOf (step c o)) -> In k (keysOf c)).
Proof.
  intros W Hset. unfold keysOf. destruct o as [k t|k v ttl tz t|k|p| |k t|t];
    try discriminate; cbn [step].
  - destruct (get_keeps_order c k t) as [-> | ->].
    + split; [lia | auto].
    + split; [apply size_delete_le | intros k'; apply In_keys_delete].
  - unfold Cache.delete. destruct (JsMap.has (cache c) k); simpl;
      (split; [apply size_delete_le | intros k'; apply In_keys_delete]).
  - destruct (Cache.deletePattern c p) as [[n c']|] eqn:E.
    + destruct (deletePattern_cache c p n c' W E) as (regex & _ & -> & _).
      split; [apply size_filter_le | intros k'; apply In_keys_filter].
    + split; [lia | auto].
  - simpl. split; [unfold JsMap.size; simpl; lia | intros k' []].
  - unfold Cache.has. case_lookup c k t; simpl.
    + split; [apply size_delete_le | intros k'; apply In_keys_delete].
    + split; [lia | auto].
    + split; [lia | auto].
  - rewrite cleanup_cache by exact W.
    split; [apply size_filter_le | intros k'; apply In_keys_filter].
Qed.

Lemma step_wf c o : cache_wf c -> cache_wf (step c o).
Proof.
  intros W. destruct o as [k t|k v ttl tz t|k|p| |k t|t]; cbn [step];
    auto with cache_wf.
  - unfold Cache.delete, cache_wf. destruct (JsMap.has (cache c) k); simpl;
      now apply wf_delete.
  - destruct (Cache.deletePattern c p) as [[n c']|] eqn:E; [|exact W].
    destruct (deletePattern_cache c p n c' W E) as (regex & _ & H & _).
    unfold cache_wf. rewrite H. now apply wf_filter.
  - constructor.
Qed.

Lemma step_configuration c o :
  cache_wf c ->
  impl (step c o) = impl c /\ maxSize (step c o) = maxSize c /\
  defaultTTL (step c o) = defaultTTL c.
Proof.
  intros W. destruct o as [k t|k v ttl tz t|k|p| |k t|t]; cbn [step].
  - unfold Cache.get. case_lookup c k t; repeat split.
  - repeat split.
  - unfold Cache.delete. destruct (JsMap.has (cache c) k); repeat split.
  - destruct (Cache.deletePattern c p) as [[n c']|] eqn:E; [|repeat split].
    destruct (deletePattern_cache c p n c' W E) as (regex & _ & _ & _ & _ & ? & ? & ?).
    repeat split; assumption.
  - repeat split.
  - unfold Cache.has. case_lookup c k t; repeat split.
  - repeat split.
Qed.

Lemma step_within_capacity c o :
  1 <= maxSize c ->
  (impl c = Frontend -> sets_key "" o = false) ->
  within_capacity c -> within_capacity (step c o).
Proof.
  intros Hmax Hkey (W & Hsize & Hempty).
  destruct (step_configuration c o W) as (Hi & Hm & _).
  unfold within_capacity. rewrite Hi, Hm.
  split; [now apply step_wf|].
  destruct (is_set o) eqn:S.
  - destruct o as [k t|k v ttl tz t|k|p| |k t|t]; try discriminate.
    cbn [step sets_key] in *.
    destruct (Z.le_gt_cases (maxSize c) (JsMap.size (cache c))) as [Hfull|Hroom].
    + (* full: the oldest key goes first *)
      destruct (JsMap.firstKey (cache c)) as [oldest|] eqn:F.
      * assert (Io : In oldest (JsMap.keys (cache c))) by (now apply firstKey_In).
        assert (E : Cache.evict c = JsMap.delete (cache c) oldest).
        { rewrite evict_full; [| exact Hfull |].
          - destruct (cache c) as [|[k0 e0] m]; [discriminate|].
            simpl in F. injection F as ->. simpl. now rewrite String.eqb_refl.
          - intros Fr E. rewrite F in E. injection E as ->. now apply Hempty. }
        unfold keysOf, Cache.set. cbn [cache Cache.with_stats Cache.with_cache].
        rewrite E. split.
        -- rewrite size_set, size_delete_present by exact Io.
           destruct (JsMap.has _ k); lia.
        -- intros Fr I.
           destruct (JsMap.has (JsMap.delete (cache c) oldest) "") eqn:H.
           ++ apply has_true_iff in H. apply In_keys_delete in H. now apply Hempty.
           ++ destruct (in_dec string_dec k (JsMap.keys (JsMap.delete (cache c) oldest)))
                as [Ik|Nk].
              ** rewrite keys_set_present in I by exact Ik.
                 apply In_keys_delete in I. now apply Hempty.
              ** rewrite keys_set_absent in I by exact Nk.
                 apply in_app_or in I. destruct I as [I|[I|[]]].
                 --- apply In_keys_delete in I. now apply Hempty.
                 --- specialize (Hkey Fr). apply String.eqb_neq in Hkey. congruence.
      * exfalso. revert F Hfull. unfold JsMap.size.
        destruct (cache c) as [|[k0 e0] m]; simpl; [lia | discriminate].
    + pose proof (set_room_size c k v ttl tz t Hroom) as Hle.
      pose proof (set_below_capacity c k v ttl tz t Hroom) as Hk.
      split; [exact Hle|]. intros Fr I. rewrite Hk in I.
      destruct (JsMap.has (cache c) k).
      * now apply Hempty.
      * apply in_app_or in I. destruct I as [I|[I|[]]]; [now apply Hempty|].
        specialize (Hkey Fr). apply String.eqb_neq in Hkey. congruence.
  - destruct (step_shrinks c o W S) as [Hle Hin].
    split; [lia|]. intros Fr I. apply Hin in I. now apply Hempty.
Qed.


Lemma new_within_capacity i o : 0 <= maxSize (Cache.new i o) -> within_capacity (Cache.new i o).
Proof.
  intros H. split; [apply new_wf|]. split; [exact H|]. intros _ [].
Qed.


(** X8. On the frontend the empty string, once it is the oldest key,
    blocks eviction: [set] deletes the oldest key only [if (firstKey)], so a
    [set] of a new key into the full store evicts nothing, the store grows
    past [maxSize], and the empty string stays the oldest key. *)
Theorem frontend_empty_key_blocks_eviction (c : InMemoryCache) (key : string)
        (v : value) (ttlSeconds : option Z) (tz now : Z) :
  let c' := Cache.set c key v ttlSeconds tz now in
  impl c = Frontend ->
  JsMap.firstKey (cache c) = Some "" ->
  maxSize c <= JsMap.size (cache c) ->
  ~ In key (keysOf c) ->
  keysOf c' = keysOf c ++ [key] /\
  JsMap.size (cache c') = JsMap.size (cache c) + 1 /\
  maxSize c' < JsMap.size (cache c') /\
  JsMap.firstKey (cache c') = Some "".
Proof.
  intros c' Fr Hfirst Hfull Hnew.
  assert (E : Cache.evict c = cache c).
  { unfold Cache.evict. apply Z.leb_le in Hfull. now rewrite Hfull, Hfirst, Fr. }
  assert (K : keysOf c' = keysOf c ++ [key]).
  { unfold c', keysOf, Cache.set. cbn [cache Cache.with_stats Cache.with_cache].
    rewrite E. now apply keys_set_absent. }
  assert (S : JsMap.size (cache c') = JsMap.size (cache c) + 1).
  { rewrite !size_keys. fold (keysOf c') (keysOf c). rewrite K, length_app. simpl. lia. }
  split; [exact K|]. split; [exact S|]. split.
  - change (maxSize c') with (maxSize c). lia.
  - unfold keysOf in K. revert K Hfirst.
    destruct (cache c') as [|[k1 e1] m1]; destruct (cache c) as [|[k0 e0] m0];
      simpl; try discriminate.
    intros [= -> _] [= ->]. reflexivity.
Qed.

Lemma frontend_empty_key_blocks_eviction_witness :
  (impl empty_key_first = Frontend /\
   JsMap.firstKey (cache empty_key_first) = Some "" /\
   maxSize empty_key_first <= JsMap.size (cache empty_key_first) /\
   ~ In "books:all" (keysOf empty_key_first)) /\
  keysOf (Cache.set empty_key_first "books:all" (VArr []) None 0 1000001)
  = [""; "books:all"] /\
  JsMap.size (cache (Cache.set empty_key_first "books:all" (VArr []) None 0 1000001))
  = 1 + 1 /\
  1 < JsMap.size (cache (Cache.set empty_key_first "books:all" (VArr []) None 0 1000001)) /\
  JsMap.firstKey (cache (Cache.set empty_key_first "books:all" (VArr []) None 0 1000001))
  = Some "".
Proof.
  assert (H1 : maxSize empty_key_first <= JsMap.size (cache empty_key_first))
    by (vm_compute; discriminate).
  assert (H2 : ~ In "books:all" (keysOf empty_key_first))
    by (simpl; intuition discriminate).
  split; [exact (conj eq_refl (conj eq_refl (conj H1 H2)))|].
  exact (frontend_empty_key_blocks_eviction empty_key_first "books:all" (VArr []) None 0
           1000001 eq_refl eq_refl H1 H2).
Defined.

(** ** The counters along a run *)

Lemma count_ops_cons f o os :
  count_ops f (o :: os) = (if f o then 1 else 0) + count_ops f os.
Proof.
  unfold count_ops. simpl. destruct (f o); simpl List.length; lia.
Qed.

Lemma step_counts c o :
  cache_wf c -> is_clear o = false ->
  hits (_stats (step c o)) + misses (_stats (step c o))
  = hits (_stats c) + misses (_stats c) + (if is_get o then 1 else 0) /\
  sets (_stats (step c o)) = sets (_stats c) + (if is_set o then 1 else 0) /\
  hits (_stats c) <= hits (_stats (step c o)) /\
  misses (_stats c) <= misses (_stats (step c o)) /\
  deletes (_stats c) <= deletes (_stats (step c o)).
Proof.
  intros W Hclear. destruct o as [k t|k v ttl tz t|k|p| |k t|t];
    try discriminate; cbn [step is_get is_set].
  - unfold Cache.get. case_lookup c k t; simpl; lia.
  - simpl. lia.
  - unfold Cache.delete. destruct (JsMap.has (cache c) k); simpl; lia.
  - destruct (Cache.deletePattern c p) as [[n c']|] eqn:E; [|lia].
    destruct (deletePattern_cache c p n c' W E) as (regex & _ & _ & Hn & -> & _).
    simpl. lia.
  - rewrite has_keeps_stats. lia.
  - simpl. lia.
Qed.



(** ** [delete] *)

(** X10. [delete] takes out its key and nothing else: it returns whether
    the key was stored, afterwards the key reads as absent for [get] and
    [has] at any time, every other entry is what it was, and a second
    [delete] returns [false] and changes nothing. *)
Theorem delete_spec (c : InMemoryCache) (key : string) :
  let c' := snd (Cache.delete c key) in
  cache_wf c ->
  fst (Cache.delete c key) = JsMap.has (cache c) key /\
  JsMap.get (cache c') key = None /\
  (forall k, k <> key -> JsMap.get (cache c') k = JsMap.get (cache c) k) /\
  (forall later, fst (Cache.get c' key later) = VNull /\
                 fst (Cache.has c' key later) = false) /\
  fst (Cache.delete c' key) = false /\
  cache (snd (Cache.delete c' key)) = cache c' /\
  _stats (snd (Cache.delete c' key)) = _stats c'.
Proof.
  intros c' W.
  assert (C : cache c' = JsMap.delete (cache c) key).
  { unfold c', Cache.delete. now destruct (JsMap.has (cache c) key). }
  assert (G : JsMap.get (cache c') key = None).
  { rewrite C. now apply get_delete_same. }
  assert (H : JsMap.has (cache c') key = false).
  { unfold JsMap.has. now rewrite G. }
  split; [reflexivity|]. split; [exact G|]. split; [|split; [|split; [|split]]].
  - intros k Hk. rewrite C. apply get_delete_other. congruence.
  - intros later. unfold Cache.get, Cache.has. rewrite G. split; reflexivity.
  - unfold Cache.delete. now rewrite H.
  - unfold Cache.delete. rewrite H. simpl. apply delete_absent.
    now apply get_None_iff.
  - unfold Cache.delete. now rewrite H.
Qed.

Lemma delete_spec_witness :
  cache_wf two_entries /\
  fst (Cache.delete two_entries "books:7") = true /\
  JsMap.get (cache (snd (Cache.delete two_entries "books:7"))) "books:7" = None /\
  (forall k, k <> "books:7" ->
             JsMap.get (cache (snd (Cache.delete two_entries "books:7"))) k
             = JsMap.get (cache two_entries) k) /\
  (forall later,
      fst (Cache.get (snd (Cache.delete two_entries "books:7")) "books:7" later) = VNull /\
      fst (Cache.has (snd (Cache.delete two_entries "books:7")) "books:7" later) = false) /\
  fst (Cache.delete (snd (Cache.delete two_entries "books:7")) "books:7") = false /\
  cache (snd (Cache.delete (snd (Cache.delete two_entries "books:7")) "books:7"))
  = cache (snd (Cache.delete two_entries "books:7")) /\
  _stats (snd (Cache.delete (snd (Cache.delete two_entries "books:7")) "books:7"))
  = _stats (snd (Cache.delete two_entries "books:7")).
Proof.
  split; [exact two_entries_wf|].
  exact (delete_spec two_entries "books:7" two_entries_wf).
Defined.

(** ** [updateInArray] *)

Lemma replaced_absent it l : occurrences (id it) l = 0%nat -> replaced it l = l.
Proof.
  unfold replaced, occurrences. induction l as [|i l IH]; simpl; [reflexivity|].
  destruct (String.eqb (id i) (id it)); simpl; [discriminate|].
  intros H. f_equal. now apply IH.
Qed.

Lemma replaced_nth it l n :
  List.nth_error (replaced it l) n
  = option_map (fun i => if String.eqb (id i) (id it) then it else i)
               (List.nth_error l n).
Proof. unfold replaced. apply nth_error_map. Qed.

(** X11. [updateInArray] on a key holding a live array sets the key again,
    to an array of the same length in which the records that carry the id of
    the item are the item and every other record is in its place unchanged
    (the same records when the id does not occur); on a key whose read
    reports absence it stores nothing. *)
Theorem updateInArray_spec (c : InMemoryCache) (arrayKey : string) (it : item)
        (tz now : Z) :
  cache_wf c ->
  (fst (Cache.get c arrayKey now) = VNull ->
   Cache.updateInArray c arrayKey it tz now = Some (snd (Cache.get c arrayKey now)) /\
   (forall later,
       fst (Cache.get (snd (Cache.get c arrayKey now)) arrayKey later) = VNull) /\
   (forall k, k <> arrayKey ->
       JsMap.get (cache (snd (Cache.get c arrayKey now))) k = JsMap.get (cache c) k)) /\
  (forall e l,
      JsMap.get (cache c) arrayKey = Some e ->
      Cache.expired now e = false ->
      value_of e = VArr l ->
      exists c',
        Cache.updateInArray c arrayKey it tz now = Some c' /\
        JsMap.get (cache c') arrayKey
        = Some (entry_with_ttl (VArr (replaced it l)) now
                               (Cache.resolveTTL c None tz now)) /\
        List.length (replaced it l) = List.length l /\
        (forall n i, List.nth_error l n = Some i ->
                     List.nth_error (replaced it l) n
                     = Some (if String.eqb (id i) (id it) then it else i)) /\
        (occurrences (id it) l = 0%nat -> replaced it l = l)).
Proof.
  intros W. split.
  - intros Hnull. split; [|split].
    + unfold Cache.updateInArray.
      destruct (Cache.get c arrayKey now) as [cached c1] eqn:G.
      simpl in Hnull. subst cached. reflexivity.
    + intros later. now apply get_null_stays_null.
    + intros k Hne. now apply get_other_keys.
  - intros e l G X V.
    unfold Cache.updateInArray. rewrite (get_live c arrayKey now e G X), V.
    cbn [truthy negb]. eexists. split; [reflexivity|].
    split; [rewrite set_stores; reflexivity|].
    split; [unfold replaced; apply length_map|].
    split; [|apply replaced_absent].
    intros n i Hn. now rewrite replaced_nth, Hn.
Qed.

Lemma updateInArray_spec_witness :
  cache_wf one_book /\
  (Cache.updateInArray one_book "users:all" (mkItem "7" "Emma, 2nd ed.") 0 1000500
   = Some (snd (Cache.get one_book "users:all" 1000500)) /\
   (forall later,
       fst (Cache.get (snd (Cache.get one_book "users:all" 1000500))
                      "users:all" later) = VNull) /\
   (forall k, k <> "users:all" ->
       JsMap.get (cache (snd (Cache.get one_book "users:all" 1000500))) k
       = JsMap.get (cache one_book) k)) /\
  (exists c',
      Cache.updateInArray one_book "books:all" (mkItem "7" "Emma, 2nd ed.") 0 1000500
      = Some c' /\
      JsMap.get (cache c') "books:all"
      = Some (entry_with_ttl (VArr [mkItem "7" "Emma, 2nd ed."]) 1000500
                             (Cache.resolveTTL one_book None 0 1000500)) /\
      List.length (replaced (mkItem "7" "Emma, 2nd ed.") [mkItem "7" "Emma"]) = 1%nat /\
      (forall n i, List.nth_error [mkItem "7" "Emma"] n = Some i ->
                   List.nth_error (replaced (mkItem "7" "Emma, 2nd ed.") [mkItem "7" "Emma"]) n
                   = Some (if String.eqb (id i) "7" then mkItem "7" "Emma, 2nd ed." else i)) /\
      (occurrences "7" [mkItem "7" "Emma"] = 0%nat ->
       replaced (mkItem "7" "Emma, 2nd ed.") [mkItem "7" "Emma"] = [mkItem "7" "Emma"])).
Proof.
  split; [exact one_book_wf|]. split.
  - exact (proj1 (updateInArray_spec one_book "users:all" (mkItem "7" "Emma, 2nd ed.")
                                     0 1000500 one_book_wf) eq_refl).
  - exact (proj2 (updateInArray_spec one_book "books:all" (mkItem "7" "Emma, 2nd ed.")
                                     0 1000500 one_book_wf)
                 (mkEntry (VArr [mkItem "7" "Emma"]) 1000000 (Some 4600000))
                 [mkItem "7" "Emma"] eq_refl eq_refl eq_refl).
Defined.

(** ** More on [deletePattern] *)

Lemma filter_none {A : Type} (q : A -> bool) (l : list A) :
  List.filter q (List.filter (fun x => negb (q x)) l) = [].
Proof.
  induction l as [|a l IH]; simpl; [reflexivity|].
  destruct (q a) eqn:Q; simpl; [|rewrite Q]; exact IH.
Qed.

(** X12. [deletePattern] removes what its regular expression matches and
    no more.  Whatever expression the constructor returns for the pattern
    ([compile], with the expression's [test]), the call returns, and
    afterwards a key is stored exactly when it was stored and the
    expression does not match it, with its entry unchanged; the count
    returned is the number of entries that left, between 0 and the size;
    and the same call again returns 0 and leaves store and counters as
    they are.  On the fragment of [RegExp.parse] this is the call of
    [Cache.deletePattern]. *)
Theorem deletePattern_spec (compile : string -> option (string -> bool))
        (c : InMemoryCache) (pattern : string) (test : string -> bool) :
  cache_wf c ->
  compile (Cache.globSource pattern) = Some test ->
  (exists (n : Z) (c' : InMemoryCache),
      Cache.deletePatternWith compile c pattern = Some (n, c') /\
      (forall key,
          JsMap.get (cache c') key
          = if test key then None else JsMap.get (cache c) key) /\
      0 <= n <= JsMap.size (cache c) /\
      JsMap.size (cache c') = JsMap.size (cache c) - n /\
      deletes (_stats c') = deletes (_stats c) + n /\
      hits (_stats c') = hits (_stats c) /\
      misses (_stats c') = misses (_stats c) /\
      sets (_stats c') = sets (_stats c) /\
      exists c'',
        Cache.deletePatternWith compile c' pattern = Some (0, c'') /\
        cache c'' = cache c' /\
        deletes (_stats c'') = deletes (_stats c') /\
        hits (_stats c'') = hits (_stats c') /\
        misses (_stats c'') = misses (_stats c') /\
        sets (_stats c'') = sets (_stats c')) /\
  Cache.deletePattern c pattern = Cache.deletePatternWith RegExp.compile c pattern.
Proof.
  intros W Hc. split; [|apply deletePattern_fragment].
  unfold Cache.deletePatternWith. rewrite Hc.
  rewrite deleteMatching_filter by exact W.
  pose proof (filter_partition_length
                (fun kv : string * CacheEntry => test (fst kv)) (cache c)) as L.
  cbv beta in L.
  set (n := Z.of_nat (List.length
                        (List.filter (fun kv : string * CacheEntry => test (fst kv))
                                     (cache c)))) in *.
  set (m := List.filter (fun kv : string * CacheEntry => negb (test (fst kv))) (cache c))
    in *.
  assert (W' : JsMap.wf m) by (now apply wf_filter).
  eexists. eexists. split; [reflexivity|].
  cbn [cache _stats Cache.with_stats Cache.with_cache].
  split; [|split; [|split; [|split; [|split; [|split; [|split]]]]]];
    try reflexivity.
  - intros key. unfold m. rewrite get_filter by exact W.
    destruct (JsMap.get (cache c) key) as [e|]; simpl;
      destruct (test key); reflexivity.
  - unfold JsMap.size. lia.
  - unfold JsMap.size. fold m in L. lia.
  - rewrite deleteMatching_filter by exact W'.
    cbn [cache _stats Cache.with_stats Cache.with_cache].
    assert (E0 : List.filter (fun kv : string * CacheEntry => test (fst kv)) m = []).
    { apply (filter_none (fun kv : string * CacheEntry => test (fst kv))). }
    assert (E1 : List.filter (fun kv : string * CacheEntry => negb (test (fst kv))) m = m).
    { apply filter_idempotent. }
    rewrite E0, E1. eexists. split; [reflexivity|].
    cbn [cache _stats Cache.with_stats Cache.with_cache Cache.did_delete
         deletes hits misses sets List.length Z.of_nat].
    repeat split; lia.
Qed.

Lemma deletePattern_spec_witness :
  (cache_wf two_entries /\
   RegExp.compile (Cache.globSource "books:?")
   = Some (RegExp.test [RegExp.Begin; RegExp.Lit "b"; RegExp.Lit "o"; RegExp.Lit "o";
                        RegExp.Lit "k"; RegExp.Lit "s"; RegExp.Lit ":"; RegExp.Any;
                        RegExp.End])) /\
  (exists (n : Z) (c' : InMemoryCache),
      Cache.deletePatternWith RegExp.compile two_entries "books:?" = Some (n, c') /\
      (forall key,
          JsMap.get (cache c') key
          = if RegExp.test [RegExp.Begin; RegExp.Lit "b"; RegExp.Lit "o"; RegExp.Lit "o";
                            RegExp.Lit "k"; RegExp.Lit "s"; RegExp.Lit ":"; RegExp.Any;
                            RegExp.End] key
            then None else JsMap.get (cache two_entries) key) /\
      0 <= n <= JsMap.size (cache two_entries) /\
      JsMap.size (cache c') = JsMap.size (cache two_entries) - n /\
      deletes (_stats c') = deletes (_stats two_entries) + n /\
      hits (_stats c') = hits (_stats two_entries) /\
      misses (_stats c') = misses (_stats two_entries) /\
      sets (_stats c') = sets (_stats two_entries) /\
      exists c'',
        Cache.deletePatternWith RegExp.compile c' "books:?" = Some (0, c'') /\
        cache c'' = cache c' /\
        deletes (_stats c'') = deletes (_stats c') /\
        hits (_stats c'') = hits (_stats c') /\
        misses (_stats c'') = misses (_stats c') /\
        sets (_stats c'') = sets (_stats c')) /\
  Cache.deletePattern two_entries "books:?"
  = Cache.deletePatternWith RegExp.compile two_entries "books:?".
Proof.
  split; [exact (conj two_entries_wf eq_refl)|].
  exact (deletePattern_spec RegExp.compile two_entries "books:?" _ two_entries_wf eq_refl).
Defined.

Lemma literal_is_plain pattern :
  literal_glob pattern = true -> plain_glob pattern = true.
Proof.
  unfold literal_glob, plain_glob. induction pattern as [|c p IH]; simpl; [reflexivity|].
  intros H. apply andb_true_iff in H. destruct H as [Hc Hp].
  rewrite Hc, (IH Hp). now rewrite orb_true_r.
Qed.

Lemma matchHere_literal pattern :
  literal_glob pattern = true ->
  forall b s,
    RegExp.matchHere (glob_terms pattern ++ [RegExp.End]) b s = String.eqb pattern s.
Proof.
  unfold literal_glob. induction pattern as [|c p IH]; intros H b s.
  - destruct s; reflexivity.
  - simpl in H. apply andb_true_iff in H. destruct H as [Hc Hp].
    apply negb_true_iff in Hc.
    destruct (not_syntax_character c Hc) as (_ & _ & _ & Hs & Hq).
    cbn [glob_terms app]. rewrite Hs, Hq. cbn [RegExp.matchHere].
    destruct s as [|a s]; [reflexivity|].
    simpl. now rewrite (IH Hp).
Qed.

Lemma filter_key_is_delete {V : Type} (m : JsMap.t V) k :
  JsMap.wf m ->
  List.filter (fun kv => negb (String.eqb k (fst kv))) m = JsMap.delete m k.
Proof.
  unfold JsMap.wf, JsMap.keys. induction m as [|[k0 v0] m IH]; simpl; intros W;
    [reflexivity|].
  inversion W as [|? ? N W']; subst.
  rewrite (String.eqb_sym k k0).
  destruct (String.eqb_spec k0 k) as [->|Hne]; simpl.
  - rewrite (IH W'). apply delete_absent. exact N.
  - f_equal. now apply IH.
Qed.

Lemma count_key {V : Type} (m : JsMap.t V) k :
  JsMap.wf m ->
  Z.of_nat (List.length (List.filter (fun kv => String.eqb k (fst kv)) m))
  = if JsMap.has m k then 1 else 0.
Proof.
  intros W.
  pose proof (filter_partition_length (fun kv : string * V => String.eqb k (fst kv)) m) as L.
  cbv beta in L. rewrite (filter_key_is_delete m k W) in L.
  destruct (JsMap.has m k) eqn:H.
  - apply has_true_iff in H. pose proof (size_delete_present m k H) as S.
    unfold JsMap.size in S. lia.
  - rewrite delete_absent in L; [lia|].
    intros I. apply has_true_iff in I. congruence.
Qed.

(** X13. A pattern without wildcards and without any other character of
    regular-expression syntax names one key: [deletePattern] then does what
    [delete] of that key does, to the store and to [deletes], and returns 1
    or 0 where [delete] returns [true] or [false].  The pattern is matched
    against the whole key, never a part of it. *)
Theorem deletePattern_literal_is_delete (c : InMemoryCache) (pattern : string) :
  cache_wf c ->
  literal_glob pattern = true ->
  exists c',
    Cache.deletePattern c pattern
    = Some ((if fst (Cache.delete c pattern) then 1 else 0), c') /\
    cache c' = cache (snd (Cache.delete c pattern)) /\
    deletes (_stats c') = deletes (_stats (snd (Cache.delete c pattern))) /\
    hits (_stats c') = hits (_stats c) /\
    misses (_stats c') = misses (_stats c) /\
    sets (_stats c') = sets (_stats c).
Proof.
  intros W Hlit.
  unfold Cache.deletePattern.
  rewrite (parse_globSource pattern (literal_is_plain pattern Hlit)).
  rewrite sweep_filter by exact W.
  assert (T : forall key,
             RegExp.test (RegExp.Begin :: glob_terms pattern ++ [RegExp.End]) key
             = String.eqb pattern key).
  { intros key. rewrite test_anchored. now apply matchHere_literal. }
  assert (E0 : List.filter
                 (fun kv : string * CacheEntry =>
                    RegExp.test (RegExp.Begin :: glob_terms pattern ++ [RegExp.End]) (fst kv))
                 (cache c)
               = List.filter (fun kv => String.eqb pattern (fst kv)) (cache c)).
  { apply filter_ext. intros kv. apply T. }
  assert (E1 : List.filter
                 (fun kv : string * CacheEntry =>
                    negb (RegExp.test (RegExp.Begin :: glob_terms pattern ++ [RegExp.End])
                                      (fst kv)))
                 (cache c)
               = JsMap.delete (cache c) pattern).
  { rewrite <- filter_key_is_delete by exact W.
    apply filter_ext. intros kv. now rewrite T. }
  rewrite E0, E1, (count_key (cache c) pattern W).
  eexists. split; [reflexivity|].
  unfold Cache.delete. destruct (JsMap.has (cache c) pattern); simpl;
    repeat split; lia.
Qed.

Lemma deletePattern_literal_is_delete_witness :
  (cache_wf two_entries /\ literal_glob "books:7" = true) /\
  exists c',
    Cache.deletePattern two_entries "books:7" = Some (1, c') /\
    cache c' = cache (snd (Cache.delete two_entries "books:7")) /\
    deletes (_stats c') = deletes (_stats (snd (Cache.delete two_entries "books:7"))) /\
    hits (_stats c') = hits (_stats two_entries) /\
    misses (_stats c') = misses (_stats two_entries) /\
    sets (_stats c') = sets (_stats two_entries).
Proof.
  split; [exact (conj two_entries_wf eq_refl)|].
  exact (deletePattern_literal_is_delete two_entries "books:7" two_entries_wf eq_refl).
Defined.

(** ** The key catalogue and invalidation *)

Lemma glob_star_end s : glob_star (glob_match "") s = true.
Proof. induction s as [|a s IH]; simpl; [reflexivity | exact IH]. Qed.

Lemma deletePattern_compiled c pattern regex :
  cache_wf c ->
  RegExp.parse (Cache.globSource pattern) = Some regex ->
  exists n c',
    Cache.deletePattern c pattern = Some (n, c') /\
    cache c' = List.filter (fun kv => negb (RegExp.test regex (fst kv))) (cache c).
Proof.
  intros W H. unfold Cache.deletePattern. rewrite H, sweep_filter by exact W.
  eexists. eexists. split; reflexivity.
Qed.

(** What the pattern of a resource matches among the keys of the
    catalogue: the keys of that resource. *)
Lemma pattern_matches_own_resource r pat r' sel :
  In (r, pat) pattern_table ->
  In r' (List.map fst pattern_table) ->
  glob_match pat (resource_key r' sel) = String.eqb r r' /\
  plain_glob pat = true /\
  no_line_terminator (resource_key r' sel) = no_line_terminator sel.
Proof.
  unfold pattern_table, resource_key. simpl.
  intros Hr Hr'.
  repeat (destruct Hr as [Hr|Hr]; [injection Hr as <- <-|]); try contradiction;
    repeat (destruct Hr' as [Hr'|Hr']; [subst r'|]); try contradiction;
    (split; [simpl; try apply glob_star_end; reflexivity | split; reflexivity]).
Qed.

(** X14. The pattern of a resource invalidates that resource and no
    other: after [deletePattern] with the pattern of one of the six
    resources, every key [resource:selector] of that resource is absent
    (selectors without line terminators), and every such key of the other
    five resources holds the entry it held.  The generators of the catalogue
    produce keys of this form. *)
Theorem resource_invalidation (c : InMemoryCache) (r pat r' sel : string) :
  cache_wf c ->
  In (r, pat) pattern_table ->
  In r' (List.map fst pattern_table) ->
  no_line_terminator sel = true ->
  (forall i q,
      [CacheKeys.allBooks; CacheKeys.book i; CacheKeys.bookSearch q]
      = List.map (resource_key "books") ["all"; i; ("search:" ++ q)%string] /\
      [CacheKeys.allUsers; CacheKeys.user i; CacheKeys.userSearch q]
      = List.map (resource_key "users") ["all"; i; ("search:" ++ q)%string] /\
      [CacheKeys.allCategories; CacheKeys.category i]
      = List.map (resource_key "categories") ["all"; i] /\
      [CacheKeys.allWriters; CacheKeys.writer i]
      = List.map (resource_key "writers") ["all"; i] /\
      CacheKeys.allIssues = resource_key "issues" "all" /\
      CacheKeys.allBookRequests = resource_key "book-requests" "all") /\
  exists n c',
    Cache.deletePattern c pat = Some (n, c') /\
    JsMap.get (cache c') (resource_key r' sel)
    = if String.eqb r r' then None else JsMap.get (cache c) (resource_key r' sel).
Proof.
  intros W Hr Hr' Hsel. split; [intros i q; repeat split|].
  destruct (pattern_matches_own_resource r pat r' sel Hr Hr') as (Hmatch & Hplain & Hlt).
  destruct (compiled_glob_agrees pat Hplain) as (regex & Hparse & Hagree).
  destruct (deletePattern_compiled c pat regex W Hparse) as (n & c' & Hdel & Hcache).
  exists n, c'. split; [exact Hdel|].
  rewrite Hcache, get_filter by exact W. cbn [fst].
  rewrite Hagree by (now rewrite Hlt). rewrite Hmatch.
  destruct (JsMap.get (cache c) (resource_key r' sel)); destruct (String.eqb r r');
    reflexivity.
Qed.

Lemma resource_invalidation_witness :
  (cache_wf two_entries /\
   In ("books", CacheKeys.patterns.allBooks) pattern_table /\
   In "books" (List.map fst pattern_table) /\
   no_line_terminator "7" = true) /\
  (forall i q,
      [CacheKeys.allBooks; CacheKeys.book i; CacheKeys.bookSearch q]
      = List.map (resource_key "books") ["all"; i; ("search:" ++ q)%string] /\
      [CacheKeys.allUsers; CacheKeys.user i; CacheKeys.userSearch q]
      = List.map (resource_key "users") ["all"; i; ("search:" ++ q)%string] /\
      [CacheKeys.allCategories; CacheKeys.category i]
      = List.map (resource_key "categories") ["all"; i] /\
      [CacheKeys.allWriters; CacheKeys.writer i]
      = List.map (resource_key "writers") ["all"; i] /\
      CacheKeys.allIssues = resource_key "issues" "all" /\
      CacheKeys.allBookRequests = resource_key "book-requests" "all") /\
  exists n c',
    Cache.deletePattern two_entries CacheKeys.patterns.allBooks = Some (n, c') /\
    JsMap.get (cache c') (CacheKeys.book "7") = None.
Proof.
  assert (H1 : In ("books", CacheKeys.patterns.allBooks) pattern_table) by (now left).
  assert (H2 : In "books" (List.map fst pattern_table)) by (now left).
  split; [exact (conj two_entries_wf (conj H1 (conj H2 eq_refl)))|].
  exact (resource_invalidation two_entries "books" CacheKeys.patterns.allBooks "books" "7"
           two_entries_wf H1 H2 eq_refl).
Defined.

(** ** More on the factory *)

(** X15. For a name other than the empty string and [__proto__],
    [register] adds or replaces one entry of the registry: the factory then
    builds the type [name] with the given class (a falsy value in its place
    makes the name unknown again), also when the name was [memory] or
    [redis] before, and every other type that is not the empty string is
    built as it was.  The two names left out behave differently: [create]
    reads an empty type as [memory], so a class registered under the empty
    string is never built, and [__proto__] names the prototype of the
    registry object, not an entry of it. *)
Theorem register_spec (r : CacheFactory.registry) (name type : string)
        (C : CacheFactory.property) (o : CacheOptions) :
  name <> "" -> name <> "__proto__" -> type <> "" -> type <> name ->
  exists r',
    CacheFactory.register r name C = Some r' /\
    CacheFactory.create r' (config_of name o)
    = match C with
      | CacheFactory.Falsy => CacheFactory.Threw (CacheFactory.UnknownCacheType name)
      | _ => CacheFactory.construct C o
      end /\
    CacheFactory.create r' (config_of type o) = CacheFactory.create r (config_of type o).
Proof.
  intros Hname Hproto Htype Hother. unfold CacheFactory.register.
  apply String.eqb_neq in Hproto. rewrite Hproto.
  eexists. split; [reflexivity|].
  unfold CacheFactory.create, CacheFactory.lookup, config_of.
  cbn [CacheFactory.config_type CacheFactory.config_options].
  apply String.eqb_neq in Hname, Htype. rewrite Hname, Htype. split.
  - rewrite get_set_same. now destruct C.
  - rewrite get_set_other by congruence. reflexivity.
Qed.

Lemma register_spec_witness :
  ("memory" <> "" /\ "memory" <> "__proto__" /\ "redis" <> "" /\ "redis" <> "memory") /\
  exists r',
    CacheFactory.register CacheFactory.cacheTypes "memory"
      (CacheFactory.Class CacheFactory.RedisCacheClass) = Some r' /\
    CacheFactory.create r' (config_of "memory" (mkOptions None None))
    = CacheFactory.construct (CacheFactory.Class CacheFactory.RedisCacheClass)
                             (mkOptions None None) /\
    CacheFactory.create r' (config_of "redis" (mkOptions None None))
    = CacheFactory.create CacheFactory.cacheTypes (config_of "redis" (mkOptions None None)).
Proof.
  assert (H1 : "memory" <> "") by discriminate.
  assert (H2 : "memory" <> "__proto__") by discriminate.
  assert (H3 : "redis" <> "") by discriminate.
  assert (H4 : "redis" <> "memory") by discriminate.
  split; [exact (conj H1 (conj H2 (conj H3 H4)))|].
  exact (register_spec CacheFactory.cacheTypes "memory" "redis"
           (CacheFactory.Class CacheFactory.RedisCacheClass) (mkOptions None None)
           H1 H2 H3 H4).
Defined.

(** X16. [getCache] builds the cache once: when the first call returns an
    instance, the module variable holds it and every later call returns
    that instance, whatever the registry and the configuration have become;
    when the first call throws, the variable stays empty and the error is
    the one of [create]. *)
Theorem getCache_singleton (r : CacheFactory.registry)
        (cacheConfig : CacheFactory.CacheConfig) :
  match CacheFactory.getCache r cacheConfig None with
  | (CacheFactory.Returned i, cacheInstance) =>
      cacheInstance = Some i /\
      CacheFactory.create r cacheConfig = CacheFactory.Returned i /\
      forall r' cacheConfig',
        CacheFactory.getCache r' cacheConfig' cacheInstance
        = (CacheFactory.Returned i, cacheInstance)
  | (CacheFactory.Threw e, cacheInstance) =>
      cacheInstance = None /\
      CacheFactory.create r cacheConfig = CacheFactory.Threw e
  end.
Proof.
  unfold CacheFactory.getCache.
  destruct (CacheFactory.create r cacheConfig) as [i|e]; repeat split.
Qed.

(** ** The data access layer *)

Lemma get_defaultTTL c key now :
  defaultTTL (snd (Cache.get c key now)) = defaultTTL c /\
  maxSize (snd (Cache.get c key now)) = maxSize c.
Proof. unfold Cache.get. case_lookup c key now; split; reflexivity. Qed.

(** The value a [get] returns is the stored one or [null]. *)
Lemma get_value c key now :
  fst (Cache.get c key now)
  = match JsMap.get (cache c) key with
    | Some e => if Cache.expired now e then VNull else value_of e
    | None => VNull
    end.
Proof. unfold Cache.get. now case_lookup c key now. Qed.

(** X17. A list or record that was fetched is served from the cache from
    then on: when [getAll] or [getById] misses and the request returns a
    truthy value, the call resolves to that value and stores it, and a later
    call before the expiry resolves to the stored value without storing
    again, whatever the server would answer by then. *)
Theorem readThrough_serves_from_cache (cacheKey : string) (c : InMemoryCache)
        (fetched : value) (response' : option value)
        (tz t_get t_set t_next t_set' : Z) :
  let ttl := Cache.resolveTTL c None tz t_set in
  let first := Api.readThrough cacheKey c (Some fetched) tz t_get t_set in
  let second := Api.readThrough cacheKey (snd first) response' tz t_next t_set' in
  truthy (fst (Cache.get c cacheKey t_get)) = false ->
  truthy fetched = true ->
  ttl = 0 \/ t_next <= t_set + ttl * 1000 ->
  fst first = Api.Resolved fetched /\
  JsMap.get (cache (snd first)) cacheKey = Some (entry_with_ttl fetched t_set ttl) /\
  fst second = Api.Resolved fetched /\
  cache (snd second) = cache (snd first) /\
  sets (_stats (snd second)) = sets (_stats (snd first)).
Proof.
  intros ttl first second Hmiss Htruthy Hlive.
  assert (F : first = (Api.Resolved fetched,
                       Cache.set (snd (Cache.get c cacheKey t_get)) cacheKey fetched
                                 None tz t_set)).
  { unfold first, Api.readThrough.
    destruct (Cache.get c cacheKey t_get) as [cached c1]. simpl in Hmiss.
    now rewrite Hmiss. }
  assert (T : Cache.resolveTTL (snd (Cache.get c cacheKey t_get)) None tz t_set = ttl).
  { unfold ttl, Cache.resolveTTL. now rewrite (proj1 (get_defaultTTL c cacheKey t_get)). }
  assert (G : JsMap.get (cache (snd first)) cacheKey
              = Some (entry_with_ttl fetched t_set ttl)).
  { rewrite F. cbn [snd]. now rewrite set_stores, T. }
  split; [now rewrite F|]. split; [exact G|].
  unfold second, Api.readThrough.
  rewrite (get_live (snd first) cacheKey t_next _ G
                    (entry_with_ttl_live fetched t_set ttl t_next Hlive)).
  cbn [value_of entry_with_ttl]. rewrite Htruthy. repeat split.
Qed.

Lemma readThrough_serves_from_cache_witness :
  (truthy (fst (Cache.get one_second_entry CacheKeys.allBooks 1000100)) = false /\
   truthy (VArr [mkItem "7" "Emma"]) = true /\
   (Cache.resolveTTL one_second_entry None 0 1000200 = 0 \/
    1000300 <= 1000200 + Cache.resolveTTL one_second_entry None 0 1000200 * 1000)) /\
  fst (booksApi.getAll one_second_entry (Some (VArr [mkItem "7" "Emma"]))
                       0 1000100 1000200)
  = Api.Resolved (VArr [mkItem "7" "Emma"]) /\
  JsMap.get (cache (snd (booksApi.getAll one_second_entry (Some (VArr [mkItem "7" "Emma"]))
                                         0 1000100 1000200))) CacheKeys.allBooks
  = Some (entry_with_ttl (VArr [mkItem "7" "Emma"]) 1000200
                         (Cache.resolveTTL one_second_entry None 0 1000200)) /\
  fst (booksApi.getAll
         (snd (booksApi.getAll one_second_entry (Some (VArr [mkItem "7" "Emma"]))
                               0 1000100 1000200))
         (Some (VArr [])) 0 1000300 1000400)
  = Api.Resolved (VArr [mkItem "7" "Emma"]) /\
  cache (snd (booksApi.getAll
                (snd (booksApi.getAll one_second_entry (Some (VArr [mkItem "7" "Emma"]))
                                      0 1000100 1000200))
                (Some (VArr [])) 0 1000300 1000400))
  = cache (snd (booksApi.getAll one_second_entry (Some (VArr [mkItem "7" "Emma"]))
                                0 1000100 1000200)) /\
  sets (_stats (snd (booksApi.getAll
                       (snd (booksApi.getAll one_second_entry
                                             (Some (VArr [mkItem "7" "Emma"]))
                                             0 1000100 1000200))
                       (Some (VArr [])) 0 1000300 1000400)))
  = sets (_stats (snd (booksApi.getAll one_second_entry (Some (VArr [mkItem "7" "Emma"]))
                                       0 1000100 1000200))).
Proof.
  assert (H : Cache.resolveTTL one_second_entry None 0 1000200 = 0 \/
              1000300 <= 1000200 + Cache.resolveTTL one_second_entry None 0 1000200 * 1000)
    by (right; vm_compute; discriminate).
  split; [exact (conj eq_refl (conj eq_refl H))|].
  exact (readThrough_serves_from_cache CacheKeys.allBooks one_second_entry
           (VArr [mkItem "7" "Emma"]) (Some (VArr [])) 0 1000100 1000200 1000300 1000400
           eq_refl eq_refl H).
Defined.

(** X18. A falsy value is stored and never served: when the request
    returns [null], [0] or the empty string, [getAll] or [getById] stores it
    ([sets] grows by one), and every later call, at any time, takes the read
    for a miss, asks the server again and resolves to the new answer (or
    rejects when the request fails). *)
Theorem readThrough_refetches_falsy (cacheKey : string) (c : InMemoryCache)
        (fetched : value) (response' : option value)
        (tz t_get t_set t_next t_set' : Z) :
  let first := Api.readThrough cacheKey c (Some fetched) tz t_get t_set in
  let second := Api.readThrough cacheKey (snd first) response' tz t_next t_set' in
  truthy (fst (Cache.get c cacheKey t_get)) = false ->
  truthy fetched = false ->
  fst first = Api.Resolved fetched /\
  sets (_stats (snd first)) = sets (_stats c) + 1 /\
  fst second = match response' with
               | Some fetched' => Api.Resolved fetched'
               | None => Api.Rejected
               end.
Proof.
  intros first second Hmiss Hfalsy.
  assert (F : first = (Api.Resolved fetched,
                       Cache.set (snd (Cache.get c cacheKey t_get)) cacheKey fetched
                                 None tz t_set)).
  { unfold first, Api.readThrough.
    destruct (Cache.get c cacheKey t_get) as [cached c1]. simpl in Hmiss.
    now rewrite Hmiss. }
  split; [now rewrite F|]. split.
  - rewrite F. cbn [snd]. unfold Cache.set, Cache.get. cbn [_stats Cache.with_stats].
    case_lookup c cacheKey t_get; reflexivity.
  - unfold second, Api.readThrough.
    pose proof (get_value (snd first) cacheKey t_next) as V.
    rewrite F in V at 2. cbn [snd] in V. rewrite set_stores in V.
    destruct (Cache.get (snd first) cacheKey t_next) as [cached c2]. cbn [fst] in V.
    assert (Hc : truthy cached = false).
    { rewrite V. destruct (Cache.expired t_next _); [reflexivity | exact Hfalsy]. }
    rewrite Hc. now destruct response'.
Qed.

Lemma readThrough_refetches_falsy_witness :
  (truthy (fst (Cache.get one_second_entry "books:9" 1000100)) = false /\
   truthy VNull = false) /\
  fst (booksApi.getById "9" one_second_entry (Some VNull) 0 1000100 1000200)
  = Api.Resolved VNull /\
  sets (_stats (snd (booksApi.getById "9" one_second_entry (Some VNull) 0 1000100 1000200)))
  = sets (_stats one_second_entry) + 1 /\
  fst (booksApi.getById "9"
         (snd (booksApi.getById "9" one_second_entry (Some VNull) 0 1000100 1000200))
         (Some (VObj (mkItem "9" "Persuasion"))) 0 1000300 1000400)
  = Api.Resolved (VObj (mkItem "9" "Persuasion")).
Proof.
  split; [exact (conj eq_refl eq_refl)|].
  exact (readThrough_refetches_falsy "books:9" one_second_entry VNull
           (Some (VObj (mkItem "9" "Persuasion"))) 0 1000100 1000200 1000300 1000400
           eq_refl eq_refl).
Defined.

(** The three helpers on a live array: one [get], counted as a hit, and
    one [set] of the new array. *)
Lemma helpers_live c arrayKey e l tz now :
  JsMap.get (cache c) arrayKey = Some e ->
  Cache.expired now e = false ->
  value_of e = VArr l ->
  let hit := Cache.with_stats c (Cache.hit (_stats c)) in
  (forall it, Cache.addToArray c arrayKey it tz now
              = Some (Cache.set hit arrayKey (VArr (l ++ [it])) None tz now)) /\
  (forall it, Cache.updateInArray c arrayKey it tz now
              = Some (Cache.set hit arrayKey (VArr (replaced it l)) None tz now)) /\
  (forall id_, Cache.removeFromArray c arrayKey id_ tz now
               = Some (Cache.set hit arrayKey (VArr (without id_ l)) None tz now)).
Proof.
  intros G X V hit.
  unfold Cache.addToArray, Cache.updateInArray, Cache.removeFromArray.
  rewrite (get_live c arrayKey now e G X), V. cbn [truthy negb].
  repeat split.
Qed.

Lemma helpers_cold c arrayKey tz now :
  fst (Cache.get c arrayKey now) = VNull ->
  (forall it, Cache.addToArray c arrayKey it tz now = Some (snd (Cache.get c arrayKey now))) /\
  (forall it, Cache.updateInArray c arrayKey it tz now
              = Some (snd (Cache.get c arrayKey now))) /\
  (forall id_, Cache.removeFromArray c arrayKey id_ tz now
               = Some (snd (Cache.get c arrayKey now))).
Proof.
  intros H. unfold Cache.addToArray, Cache.updateInArray, Cache.removeFromArray.
  destruct (Cache.get c arrayKey now) as [cached c1]. simpl in H. subst cached.
  repeat split.
Qed.

Lemma set_cache_room c key v ttlSeconds tz now :
  JsMap.size (cache c) < maxSize c ->
  cache (Cache.set c key v ttlSeconds tz now)
  = JsMap.set (cache c) key
              (entry_with_ttl v now (Cache.resolveTTL c ttlSeconds tz now)).
Proof.
  intros Hroom. unfold Cache.set. cbn [cache Cache.with_stats Cache.with_cache].
  now rewrite evict_room.
Qed.

(** A helper's [set] of the live list, followed by the [set] of the
    record, in a cache with room: both entries are stored and every other
    key is untouched. *)
Lemma list_then_item c listKey itemKey e l' r tz now :
  JsMap.size (cache c) < maxSize c ->
  listKey <> itemKey ->
  JsMap.get (cache c) listKey = Some e ->
  let ttl := Cache.resolveTTL c None tz now in
  let c' := Cache.set
              (Cache.set (Cache.with_stats c (Cache.hit (_stats c)))
                         listKey (VArr l') None tz now)
              itemKey (VObj r) None tz now in
  JsMap.get (cache c') listKey = Some (entry_with_ttl (VArr l') now ttl) /\
  JsMap.get (cache c') itemKey = Some (entry_with_ttl (VObj r) now ttl) /\
  (forall k, k <> listKey -> k <> itemKey ->
             JsMap.get (cache c') k = JsMap.get (cache c) k).
Proof.
  intros Hroom Hne G ttl c'.
  set (hit := Cache.with_stats c (Cache.hit (_stats c))).
  set (c1 := Cache.set hit listKey (VArr l') None tz now).
  assert (E1 : cache c1 = JsMap.set (cache c) listKey (entry_with_ttl (VArr l') now ttl)).
  { unfold c1. now rewrite set_cache_room by exact Hroom. }
  assert (S1 : JsMap.size (cache c1) < maxSize c1).
  { rewrite E1, size_set. unfold JsMap.has. rewrite G.
    change (maxSize c1) with (maxSize c). lia. }
  assert (E2 : cache c' = JsMap.set (cache c1) itemKey (entry_with_ttl (VObj r) now ttl)).
  { unfold c'. fold hit. fold c1. now rewrite set_cache_room by exact S1. }
  rewrite E2, E1. split; [|split].
  - rewrite get_set_other by congruence. apply get_set_same.
  - apply get_set_same.
  - intros k Hl Hi. now rewrite !get_set_other by congruence.
Qed.

(** X19. [create] keeps the cached list and the cached record in step: in
    a cache with room, when the list is cached and live, afterwards the list
    is the old list with the created record appended and the key of the
    record holds the created record, both freshly set, and no other key
    changes; when the list is not cached it stays uncached and the record is
    cached all the same.  The key of the record must differ from the key of
    the list (for books: the id is not [all]). *)
Theorem api_create_coherent (listKey : string) (itemKey : string -> string)
        (c : InMemoryCache) (created : item) (tz now : Z) :
  let ttl := Cache.resolveTTL c None tz now in
  cache_wf c ->
  JsMap.size (cache c) < maxSize c ->
  listKey <> itemKey (id created) ->
  fst (Api.create listKey itemKey c (Some created) tz now) = Api.Resolved created /\
  (forall e l,
      JsMap.get (cache c) listKey = Some e ->
      Cache.expired now e = false ->
      value_of e = VArr l ->
      exists c',
        snd (Api.create listKey itemKey c (Some created) tz now) = Some c' /\
        JsMap.get (cache c') listKey
        = Some (entry_with_ttl (VArr (l ++ [created])) now ttl) /\
        JsMap.get (cache c') (itemKey (id created))
        = Some (entry_with_ttl (VObj created) now ttl) /\
        (forall k, k <> listKey -> k <> itemKey (id created) ->
                   JsMap.get (cache c') k = JsMap.get (cache c) k)) /\
  (fst (Cache.get c listKey now) = VNull ->
   exists c',
     snd (Api.create listKey itemKey c (Some created) tz now) = Some c' /\
     (forall later, fst (Cache.get c' listKey later) = VNull) /\
     JsMap.get (cache c') (itemKey (id created))
     = Some (entry_with_ttl (VObj created) now ttl)).
Proof.
  intros ttl W Hroom Hne. split; [reflexivity|]. split.
  - intros e l G X V.
    destruct (helpers_live c listKey e l tz now G X V) as (Hadd & _ & _).
    unfold Api.create. cbn [snd]. rewrite Hadd.
    eexists. split; [reflexivity|].
    now apply (list_then_item c listKey (itemKey (id created)) e).
  - intros Hnull.
    destruct (helpers_cold c listKey tz now Hnull) as (Hadd & _ & _).
    unfold Api.create. cbn [snd]. rewrite Hadd.
    eexists. split; [reflexivity|].
    set (c1 := snd (Cache.get c listKey now)).
    assert (S1 : JsMap.size (cache c1) < maxSize c1).
    { unfold c1. rewrite (proj2 (get_defaultTTL c listKey now)).
      destruct (get_keeps_order c listKey now) as [-> | ->]; [exact Hroom|].
      pose proof (size_delete_le (cache c) listKey). lia. }
    assert (T : Cache.resolveTTL c1 None tz now = ttl).
    { unfold ttl, c1, Cache.resolveTTL. now rewrite (proj1 (get_defaultTTL c listKey now)). }
    split.
    + intros later. rewrite get_value, set_cache_room by exact S1.
      rewrite get_set_other by congruence.
      pose proof (get_null_stays_null c listKey now later W Hnull) as N.
      rewrite get_value in N. exact N.
    + now rewrite set_stores, T.
Qed.

Lemma api_create_coherent_witness :
  (cache_wf one_book /\
   JsMap.size (cache one_book) < maxSize one_book /\
   CacheKeys.allBooks <> CacheKeys.book (id (mkItem "8" "Persuasion"))) /\
  fst (booksApi.create one_book (Some (mkItem "8" "Persuasion")) 0 1000500)
  = Api.Resolved (mkItem "8" "Persuasion") /\
  (exists c',
      snd (booksApi.create one_book (Some (mkItem "8" "Persuasion")) 0 1000500) = Some c' /\
      JsMap.get (cache c') CacheKeys.allBooks
      = Some (entry_with_ttl (VArr [mkItem "7" "Emma"; mkItem "8" "Persuasion"]) 1000500
                             (Cache.resolveTTL one_book None 0 1000500)) /\
      JsMap.get (cache c') (CacheKeys.book "8")
      = Some (entry_with_ttl (VObj (mkItem "8" "Persuasion")) 1000500
                             (Cache.resolveTTL one_book None 0 1000500)) /\
      (forall k, k <> CacheKeys.allBooks -> k <> CacheKeys.book "8" ->
                 JsMap.get (cache c') k = JsMap.get (cache one_book) k)).
Proof.
  assert (H1 : JsMap.size (cache one_book) < maxSize one_book) by (vm_compute; reflexivity).
  assert (H2 : CacheKeys.allBooks <> CacheKeys.book (id (mkItem "8" "Persuasion")))
    by discriminate.
  split; [exact (conj one_book_wf (conj H1 H2))|].
  destruct (api_create_coherent CacheKeys.allBooks CacheKeys.book one_book
              (mkItem "8" "Persuasion") 0 1000500 one_book_wf H1 H2) as (R & L & _).
  split; [exact R|].
  exact (L (mkEntry (VArr [mkItem "7" "Emma"]) 1000000 (Some 4600000))
           [mkItem "7" "Emma"] eq_refl eq_refl eq_refl).
Defined.

(** X20. [update] keeps the cached list and the cached record in step: in
    a cache with room and with the list cached and live, afterwards the list
    has the updated record in the place of the records with its id, its
    length unchanged, the key of the record holds the updated record, and no
    other key changes.  The key of the record must differ from the key of
    the list. *)
Theorem api_update_coherent (listKey : string) (itemKey : string -> string)
        (c : InMemoryCache) (id_ : string) (updated : item)
        (e : CacheEntry) (l : list item) (tz now : Z) :
  let ttl := Cache.resolveTTL c None tz now in
  JsMap.size (cache c) < maxSize c ->
  listKey <> itemKey id_ ->
  JsMap.get (cache c) listKey = Some e ->
  Cache.expired now e = false ->
  value_of e = VArr l ->
  exists c',
    Api.update listKey itemKey c id_ (Some updated) tz now
    = (Api.Resolved updated, Some c') /\
    JsMap.get (cache c') listKey
    = Some (entry_with_ttl (VArr (replaced updated l)) now ttl) /\
    List.length (replaced updated l) = List.length l /\
    JsMap.get (cache c') (itemKey id_) = Some (entry_with_ttl (VObj updated) now ttl) /\
    (forall k, k <> listKey -> k <> itemKey id_ ->
               JsMap.get (cache c') k = JsMap.get (cache c) k).
Proof.
  intros ttl Hroom Hne G X V.
  destruct (helpers_live c listKey e l tz now G X V) as (_ & Hupd & _).
  unfold Api.update. rewrite Hupd.
  eexists. split; [reflexivity|].
  destruct (list_then_item c listKey (itemKey id_) e (replaced updated l) updated tz now
              Hroom Hne G) as (HL & HI & HO).
  split; [exact HL|]. split; [unfold replaced; apply length_map|].
  split; [exact HI | exact HO].
Qed.

Lemma api_update_coherent_witness :
  (JsMap.size (cache one_book) < maxSize one_book /\
   CacheKeys.allBooks <> CacheKeys.book "7" /\
   JsMap.get (cache one_book) CacheKeys.allBooks
   = Some (mkEntry (VArr [mkItem "7" "Emma"]) 1000000 (Some 4600000)) /\
   Cache.expired 1000500 (mkEntry (VArr [mkItem "7" "Emma"]) 1000000 (Some 4600000)) = false) /\
  exists c',
    booksApi.update one_book "7" (Some (mkItem "7" "Emma, 2nd ed.")) 0 1000500
    = (Api.Resolved (mkItem "7" "Emma, 2nd ed."), Some c') /\
    JsMap.get (cache c') CacheKeys.allBooks
    = Some (entry_with_ttl (VArr [mkItem "7" "Emma, 2nd ed."]) 1000500
                           (Cache.resolveTTL one_book None 0 1000500)) /\
    List.length (replaced (mkItem "7" "Emma, 2nd ed.") [mkItem "7" "Emma"]) = 1%nat /\
    JsMap.get (cache c') (CacheKeys.book "7")
    = Some (entry_with_ttl (VObj (mkItem "7" "Emma, 2nd ed.")) 1000500
                           (Cache.resolveTTL one_book None 0 1000500)) /\
    (forall k, k <> CacheKeys.allBooks -> k <> CacheKeys.book "7" ->
               JsMap.get (cache c') k = JsMap.get (cache one_book) k).
Proof.
  assert (H1 : JsMap.size (cache one_book) < maxSize one_book) by (vm_compute; reflexivity).
  assert (H2 : CacheKeys.allBooks <> CacheKeys.book "7") by discriminate.
  split; [exact (conj H1 (conj H2 (conj eq_refl eq_refl)))|].
  exact (api_update_coherent CacheKeys.allBooks CacheKeys.book one_book "7"
           (mkItem "7" "Emma, 2nd ed.")
           (mkEntry (VArr [mkItem "7" "Emma"]) 1000000 (Some 4600000))
           [mkItem "7" "Emma"] 0 1000500 H1 H2 eq_refl eq_refl eq_refl).
Defined.

(** X21. [delete] of the data access layer removes the record from both
    places, also in a full cache: with the list cached and live, afterwards
    the list holds the old records without those of the id, and the key of
    the record is absent, for [get] and [has] at any time.  The key of the
    record must differ from the key of the list. *)
Theorem api_delete_coherent (listKey : string) (itemKey : string -> string)
        (c : InMemoryCache) (id_ : string)
        (e : CacheEntry) (l : list item) (tz now : Z) :
  cache_wf c ->
  listKey <> itemKey id_ ->
  JsMap.get (cache c) listKey = Some e ->
  Cache.expired now e = false ->
  value_of e = VArr l ->
  exists c',
    Api.delete listKey itemKey c id_ (Some tt) tz now = (Api.Resolved tt, Some c') /\
    JsMap.get (cache c') listKey
    = Some (entry_with_ttl (VArr (without id_ l)) now (Cache.resolveTTL c None tz now)) /\
    (forall i, In i (without id_ l) <-> In i l /\ id i <> id_) /\
    JsMap.get (cache c') (itemKey id_) = None /\
    (forall later, fst (Cache.get c' (itemKey id_) later) = VNull /\
                   fst (Cache.has c' (itemKey id_) later) = false).
Proof.
  intros W Hne G X V.
  destruct (helpers_live c listKey e l tz now G X V) as (_ & _ & Hrem).
  unfold Api.delete. rewrite Hrem.
  eexists. split; [reflexivity|].
  set (c1 := Cache.set (Cache.with_stats c (Cache.hit (_stats c))) listKey
                       (VArr (without id_ l)) None tz now).
  assert (W1 : cache_wf c1) by (unfold c1; apply set_wf; exact W).
  assert (C : cache (snd (Cache.delete c1 (itemKey id_)))
              = JsMap.delete (cache c1) (itemKey id_)).
  { unfold Cache.delete. now destruct (JsMap.has (cache c1) (itemKey id_)). }
  assert (N : JsMap.get (cache (snd (Cache.delete c1 (itemKey id_)))) (itemKey id_) = None).
  { rewrite C. now apply get_delete_same. }
  split; [|split; [|split]].
  - rewrite C, get_delete_other by congruence. unfold c1. now rewrite set_stores.
  - intros i. apply without_spec.
  - exact N.
  - intros later. unfold Cache.get, Cache.has. rewrite N. split; reflexivity.
Qed.

Lemma api_delete_coherent_witness :
  (cache_wf two_entries /\
   CacheKeys.allBooks <> CacheKeys.book "7" /\
   JsMap.get (cache two_entries) CacheKeys.allBooks
   = Some (entry_with_ttl (VArr [mkItem "7" "Emma"]) 1000000
                          (Cache._getSecondsUntilMidnight 0 1000000)) /\
   Cache.expired 1000500
     (entry_with_ttl (VArr [mkItem "7" "Emma"]) 1000000
                     (Cache._getSecondsUntilMidnight 0 1000000)) = false) /\
  exists c',
    booksApi.delete two_entries "7" (Some tt) 0 1000500 = (Api.Resolved tt, Some c') /\
    JsMap.get (cache c') CacheKeys.allBooks
    = Some (entry_with_ttl (VArr []) 1000500 (Cache.resolveTTL two_entries None 0 1000500)) /\
    (forall i, In i (without "7" [mkItem "7" "Emma"])
               <-> In i [mkItem "7" "Emma"] /\ id i <> "7") /\
    JsMap.get (cache c') (CacheKeys.book "7") = None /\
    (forall later, fst (Cache.get c' (CacheKeys.book "7") later) = VNull /\
                   fst (Cache.has c' (CacheKeys.book "7") later) = false).
Proof.
  assert (H2 : CacheKeys.allBooks <> CacheKeys.book "7") by discriminate.
  split; [exact (conj two_entries_wf (conj H2 (conj eq_refl eq_refl)))|].
  exact (api_delete_coherent CacheKeys.allBooks CacheKeys.book two_entries "7"
           (entry_with_ttl (VArr [mkItem "7" "Emma"]) 1000000
                           (Cache._getSecondsUntilMidnight 0 1000000))
           [mkItem "7" "Emma"] 0 1000500 two_entries_wf H2 eq_refl eq_refl eq_refl).
Defined.

(** ** Bounds *)



(** X23. A [maxSize] of zero or less does not empty the cache: [set]
    evicts the oldest entry before it stores, so a cache of at most one
    entry holds exactly the key just set afterwards, one entry more than
    [maxSize] allows.  (On the frontend the stored key must not be the empty
    string.) *)
Theorem set_with_no_capacity (c : InMemoryCache) (key : string) (v : value)
        (ttlSeconds : option Z) (tz now : Z) :
  let c' := Cache.set c key v ttlSeconds tz now in
  maxSize c <= 0 ->
  JsMap.size (cache c) <= 1 ->
  (impl c = Frontend -> ~ In "" (keysOf c)) ->
  keysOf c' = [key] /\
  JsMap.size (cache c') = 1 /\
  maxSize c' < JsMap.size (cache c').
Proof.
  intros c' Hmax Hsize Hempty.
  assert (K : keysOf c' = [key]).
  { unfold c', keysOf, Cache.set, Cache.evict in *.
    cbn [cache Cache.with_stats Cache.with_cache].
    assert (F : (maxSize c <=? JsMap.size (cache c)) = true).
    { apply Z.leb_le. unfold JsMap.size. lia. }
    rewrite F. unfold JsMap.size in Hsize.
    destruct (cache c) as [|[k0 e0] [|b m]]; simpl in *; [reflexivity| |lia].
    destruct (impl c).
    - now rewrite String.eqb_refl.
    - destruct (String.eqb_spec k0 "") as [->|N]; [exfalso; apply Hempty; auto|].
      now rewrite String.eqb_refl. }
  assert (S : JsMap.size (cache c') = 1).
  { rewrite size_keys. fold (keysOf c'). now rewrite K. }
  split; [exact K|]. split; [exact S|].
  change (maxSize c') with (maxSize c). lia.
Qed.

Lemma set_with_no_capacity_witness :
  (maxSize (Cache.new Frontend (mkOptions None (Some 0))) <= 0 /\
   JsMap.size (cache (Cache.new Frontend (mkOptions None (Some 0)))) <= 1 /\
   (impl (Cache.new Frontend (mkOptions None (Some 0))) = Frontend ->
    ~ In "" (keysOf (Cache.new Frontend (mkOptions None (Some 0)))))) /\
  keysOf (Cache.set (Cache.new Frontend (mkOptions None (Some 0)))
                    "books:all" (VArr []) None 0 1000000) = ["books:all"] /\
  JsMap.size (cache (Cache.set (Cache.new Frontend (mkOptions None (Some 0)))
                               "books:all" (VArr []) None 0 1000000)) = 1 /\
  0 < JsMap.size (cache (Cache.set (Cache.new Frontend (mkOptions None (Some 0)))
                                   "books:all" (VArr []) None 0 1000000)).
Proof.
  assert (H1 : maxSize (Cache.new Frontend (mkOptions None (Some 0))) <= 0)
    by (vm_compute; discriminate).
  assert (H2 : JsMap.size (cache (Cache.new Frontend (mkOptions None (Some 0)))) <= 1)
    by (vm_compute; discriminate).
  assert (H3 : impl (Cache.new Frontend (mkOptions None (Some 0))) = Frontend ->
               ~ In "" (keysOf (Cache.new Frontend (mkOptions None (Some 0)))))
    by (intros _ []).
  split; [exact (conj H1 (conj H2 H3))|].
  exact (set_with_no_capacity (Cache.new Frontend (mkOptions None (Some 0)))
           "books:all" (VArr []) None 0 1000000 H1 H2 H3).
Defined.
